(** * security_monkey: the resource-policy auditor

    A shallow embedding of
    [security_monkey/auditors/resource_policy_auditor.py]
    (class [ResourcePolicyAuditor]) and the properties of its policy
    extraction and of its five checks.

    The auditor is written against four collaborators that live outside the
    module: the [dpath] path query, the [policyuniverse] policy and ARN
    parsers, and the account registry behind [Auditor.inspect_entity].  They
    are variables of the sections below; the objects they return
    ([Policy], [Statement], [ARN]) are records of the attributes and method
    results the auditor reads. *)

From stdpp Require Import gmap strings list.
From Stdlib Require Import ZArith Permutation.

Local Open Scope string_scope.
Local Open Scope list_scope.

(** ** Python values

    Configuration trees, and every attribute the auditor tests with a bare
    [if x:], are dynamically typed.  [pyval] is the JSON fragment of Python's
    values and [truthy] its truth test. *)

#[local] Set Warnings "-register-all".

Inductive pyval : Type :=
| PyNone
| PyBool (b : bool)
| PyInt (n : Z)
| PyStr (s : string)
| PyList (l : list pyval)
| PyDict (d : list (string * pyval)).

Definition truthy (v : pyval) : bool :=
  match v with
  | PyNone => false
  | PyBool b => b
  | PyInt n => negb (n =? 0)%Z
  | PyStr s => negb (String.eqb s "")
  | PyList l => match l with [] => false | _ :: _ => true end
  | PyDict d => match d with [] => false | _ :: _ => true end
  end.

(** ** Exceptions and the state-and-exception monad

    [PathNotFound] is [dpath.exceptions.PathNotFound], the only exception the
    module catches; [Exception msg] stands for every other one.  A
    computation in [M St A] runs on a mutable store [St]; the store survives
    an exception, as a Python list mutated before a [raise] does. *)

Inductive exn : Type :=
| PathNotFound
| Exception (msg : string).

Inductive outcome (A : Type) : Type :=
| Return (a : A)
| Raise (e : exn).
Arguments Return {A} a.
Arguments Raise {A} e.

Definition M (St A : Type) : Type := St -> outcome A * St.

Definition ret {St A} (a : A) : M St A := fun s => (Return a, s).

Definition bind {St A B} (c : M St A) (k : A -> M St B) : M St B :=
  fun s => match c s with
           | (Return a, s') => k a s'
           | (Raise e, s') => (Raise e, s')
           end.

Definition lift {St A} (o : outcome A) : M St A := fun s => (o, s).

Definition modify {St} (f : St -> St) : M St unit := fun s => (Return tt, f s).

Declare Scope py_scope.
Delimit Scope py_scope with py.
Notation "x <- c ;; k" := (bind c (fun x => k))
  (at level 100, c at next level, right associativity) : py_scope.
Notation "c ;; k" := (bind c (fun _ => k))
  (at level 100, right associativity) : py_scope.
Local Open Scope py_scope.

(** [for x in l: body] *)
Fixpoint for_each {St A} (l : list A) (body : A -> M St unit) : M St unit :=
  match l with
  | [] => ret tt
  | x :: l' => body x ;; for_each l' body
  end.

(** [continue] ends the current iteration of the enclosing loop body. *)
Definition continue {St} : M St unit := ret tt.

(** [try: c  except PathNotFound: handler] *)
Definition try_except_PathNotFound {St} (c handler : M St unit) : M St unit :=
  fun s => match c s with
           | (Raise PathNotFound, s') => handler s'
           | r => r
           end.

(** A list comprehension [[f(x) for x in l]]: the elements are evaluated in
    order and the first exception abandons the whole list. *)
Fixpoint comprehension {A B} (f : A -> outcome B) (l : list A) : outcome (list B) :=
  match l with
  | [] => Return []
  | x :: l' =>
      match f x with
      | Raise e => Raise e
      | Return y =>
          match comprehension f l' with
          | Raise e => Raise e
          | Return ys => Return (y :: ys)
          end
      end
  end.

(** ** The data model *)

(** [policyuniverse]'s [PrincipalTuple] / [ConditionTuple]: what
    [Statement.whos_allowed()] yields. *)
Module Who.
Record t : Type := { category : string; value : string }.
End Who.

(** A [policyuniverse] [Statement], as far as the auditor reads it.
    [actions] is a Python set; [whos_allowed] is the sequence in which the
    result of [whos_allowed()] is iterated. *)
Record Statement : Type := {
  effect : string;
  actions : gset string;
  whos_allowed : list Who.t
}.

(** A [policyuniverse] [Policy]: its statements and the results of its two
    internet-reachability methods. *)
Record Policy : Type := {
  statements : list Statement;
  is_internet_accessible : bool;
  internet_accessible_actions : gset string
}.

(** A [policyuniverse] [ARN].  [service] is tested for truth by the auditor,
    so it is kept as a Python value. *)
Record ARN : Type := { service : pyval; root : bool }.

Record Item : Type := {
  item_name : string;
  item_account : string;
  config : pyval
}.

Module Entity.
(** Modelled from the spec: [security_monkey.auditor.Entity], which is not
    part of this module: "a classified principal reference" with a category
    and a value, built either from a (category, value) pair produced by
    statement evaluation or directly. *)
Record t : Type := { category : string; value : string }.

Definition from_tuple (who : Who.t) : t :=
  {| category := Who.category who; value := Who.value who |}.
End Entity.

Inductive FindingCategory : Type :=
| internet | friendly | thirdparty | unknown | root_cross_account.

Record Finding : Type := {
  finding_category : FindingCategory;
  finding_item : Item;
  finding_entity : Entity.t;
  finding_actions : list string
}.

(** [list(s)] for a Python set of strings. *)
Definition list_of_set (s : gset string) : list string := elements s.

(** ** The finding sink

    Modelled from the spec: the five [record_*] methods of
    [security_monkey.auditor.Auditor], which is not part of this module:
    "record_<category>(item, entity, actions) — five such operations, one per
    Finding category", write-only from the checks' side.  The sink is the
    sequence of findings recorded so far. *)

Definition Sink : Type := list Finding.

Definition record (c : FindingCategory) (item : Item) (entity : Entity.t)
    (acts : list string) : M Sink unit :=
  modify (fun sink => sink ++ [{| finding_category := c; finding_item := item;
                                  finding_entity := entity; finding_actions := acts |}]).

Definition record_internet_access := record internet.
Definition record_friendly_access := record friendly.
Definition record_thirdparty_access := record thirdparty.
Definition record_unknown_access := record unknown.
Definition record_cross_account_root := record root_cross_account.

(** ** The auditor *)

Record ResourcePolicyAuditor : Type := { policy_keys : list string }.

(** [ResourcePolicyAuditor.__init__]: [self.policy_keys = ['Policy']]. *)
Definition init : ResourcePolicyAuditor := {| policy_keys := ["Policy"] |}.

Section Auditor.

(** [dpath.util.values(obj, glob, separator)]. *)
Variable dpath_values : pyval -> string -> string -> outcome pyval.
(** [Policy(document)]. *)
Variable new_Policy : pyval -> outcome Policy.
(** [ARN(value)]. *)
Variable new_ARN : string -> ARN.
(** [self.inspect_entity(entity, item)]: the registry's tag set. *)
Variable inspect_entity : Entity.t -> Item -> gset string.

Variable self : ResourcePolicyAuditor.

(** The body of the [try] block of [load_policies], on the local list
    [policies]. *)
Definition load_policies_try (item : Item) (key : string) : M (list Policy) unit :=
  policy <- lift (dpath_values (config item) key "$") ;;
  match policy with
  | PyList l =>
      for_each l (fun p =>
        if negb (truthy p) then continue
        else match p with
             | PyList l' =>
                 ps <- lift (comprehension new_Policy l') ;;
                 modify (fun policies => policies ++ ps)
             | _ =>
                 p' <- lift (new_Policy p) ;;
                 modify (fun policies => policies ++ [p'])
             end)
  | _ =>
      p' <- lift (new_Policy policy) ;;
      modify (fun policies => policies ++ [p'])
  end.

Definition load_policies (item : Item) : outcome (list Policy) :=
  match for_each (policy_keys self)
          (fun key => try_except_PathNotFound (load_policies_try item key) continue)
          []
  with
  | (Return _, policies) => Return policies
  | (Raise e, _) => Raise e
  end.

(** *** The five checks

    Each check is [load_policies] followed by a loop over the policies; the
    loop body is named so that it can be stated on one policy. *)

Definition everyone : Entity.t :=
  {| Entity.category := "principal"; Entity.value := "*" |}.

Definition check_internet_accessible_policy (item : Item) (policy : Policy) : M Sink unit :=
  if is_internet_accessible policy then
    let entity := everyone in
    let acts := list_of_set (internet_accessible_actions policy) in
    record_internet_access item entity acts
  else ret tt.

Definition check_internet_accessible (item : Item) : M Sink unit :=
  policies <- lift (load_policies item) ;;
  for_each policies (check_internet_accessible_policy item).

Definition check_friendly_cross_account_policy (item : Item) (policy : Policy) : M Sink unit :=
  for_each (statements policy) (fun statement =>
    if negb (String.eqb (effect statement) "Allow") then continue
    else
      for_each (whos_allowed statement) (fun who =>
        let entity := Entity.from_tuple who in
        if bool_decide ("FRIENDLY" ∈ inspect_entity entity item) then
          record_friendly_access item entity (list_of_set (actions statement))
        else ret tt)).

Definition check_friendly_cross_account (item : Item) : M Sink unit :=
  policies <- lift (load_policies item) ;;
  for_each policies (check_friendly_cross_account_policy item).

Definition check_thirdparty_cross_account_policy (item : Item) (policy : Policy) : M Sink unit :=
  for_each (statements policy) (fun statement =>
    if negb (String.eqb (effect statement) "Allow") then continue
    else
      for_each (whos_allowed statement) (fun who =>
        let entity := Entity.from_tuple who in
        if bool_decide ("THIRDPARTY" ∈ inspect_entity entity item) then
          record_thirdparty_access item entity (list_of_set (actions statement))
        else ret tt)).

Definition check_thirdparty_cross_account (item : Item) : M Sink unit :=
  policies <- lift (load_policies item) ;;
  for_each policies (check_thirdparty_cross_account_policy item).

Definition check_unknown_cross_account_policy (item : Item) (policy : Policy) : M Sink unit :=
  if is_internet_accessible policy then continue
  else
    for_each (statements policy) (fun statement =>
      if negb (String.eqb (effect statement) "Allow") then continue
      else
        for_each (whos_allowed statement) (fun who =>
          if String.eqb (Who.value who) "*" && String.eqb (Who.category who) "principal"
          then continue
          else
            (* Ignore Service Principals *)
            if String.eqb (Who.category who) "principal"
               && truthy (service (new_ARN (Who.value who)))
            then continue
            else
              let entity := Entity.from_tuple who in
              if bool_decide ("UNKNOWN" ∈ inspect_entity entity item) then
                record_unknown_access item entity (list_of_set (actions statement))
              else ret tt)).

Definition check_unknown_cross_account (item : Item) : M Sink unit :=
  policies <- lift (load_policies item) ;;
  for_each policies (check_unknown_cross_account_policy item).

Definition cross_account_tags : gset string := {[ "FRIENDLY"; "THIRDPARTY"; "UNKNOWN" ]}.

Definition check_root_cross_account_policy (item : Item) (policy : Policy) : M Sink unit :=
  for_each (statements policy) (fun statement =>
    if negb (String.eqb (effect statement) "Allow") then continue
    else
      for_each (whos_allowed statement) (fun who =>
        if negb (bool_decide (Who.category who ∈ ["arn"; "principal"])) then continue
        else if String.eqb (Who.value who) "*" then continue
        else
          let arn := new_ARN (Who.value who) in
          let entity := Entity.from_tuple who in
          if root arn
             && negb (bool_decide (inspect_entity entity item ∩ cross_account_tags = ∅))
          then record_cross_account_root item entity (list_of_set (actions statement))
          else ret tt)).

Definition check_root_cross_account (item : Item) : M Sink unit :=
  policies <- lift (load_policies item) ;;
  for_each policies (check_root_cross_account_policy item).

End Auditor.
(** ** Observing a check

    [new_findings c s] is what the run of [c] on the sink [s] has added to it
    and [raised c s] the exception it ended with, if any. *)

Definition new_findings (c : M Sink unit) (s : Sink) : list Finding :=
  drop (length s) (snd (c s)).

Definition raised (c : M Sink unit) (s : Sink) : option exn :=
  match fst (c s) with Return _ => None | Raise e => Some e end.

(** The five checks, by name. *)
Inductive check : Type :=
| Internet | Friendly | Thirdparty | Unknown | Root.

Definition category_of (c : check) : FindingCategory :=
  match c with
  | Internet => internet
  | Friendly => friendly
  | Thirdparty => thirdparty
  | Unknown => unknown
  | Root => root_cross_account
  end.

(** ** What the checks record, declaratively

    The definitions of this part restate the loops of the auditor as lists:
    the specification's words for what a check records, to be compared with
    the loops. *)

Definition finding (c : FindingCategory) (item : Item) (entity : Entity.t)
    (acts : list string) : Finding :=
  {| finding_category := c; finding_item := item;
     finding_entity := entity; finding_actions := acts |}.

(** The (policy, Allow-statement, granted-entity) triples of a list of
    policies, in iteration order. *)
Definition allow_triples (policies : list Policy) : list (Policy * Statement * Who.t) :=
  flat_map (fun policy =>
    flat_map (fun statement =>
      if String.eqb (effect statement) "Allow"
      then map (fun who => (policy, statement, who)) (whos_allowed statement)
      else [])
      (statements policy))
    policies.

Definition no_skip (who : Who.t) : bool := false.

Definition is_wildcard_principal (who : Who.t) : bool :=
  String.eqb (Who.value who) "*" && String.eqb (Who.category who) "principal".

Definition not_internet_accessible (policy : Policy) : bool :=
  negb (is_internet_accessible policy).

Definition internet_findings (item : Item) (policies : list Policy) : list Finding :=
  flat_map (fun policy =>
    if is_internet_accessible policy
    then [finding internet item everyone (list_of_set (internet_accessible_actions policy))]
    else [])
    policies.

(** A policy with its [Deny] statements taken out; the policy library's
    verdict on internet access and its set of exposed actions are kept. *)
Definition is_deny (statement : Statement) : bool := String.eqb (effect statement) "Deny".

Definition without_deny (policy : Policy) : Policy :=
  {| statements := List.filter (fun statement => negb (is_deny statement)) (statements policy);
     is_internet_accessible := is_internet_accessible policy;
     internet_accessible_actions := internet_accessible_actions policy |}.

(** A policy with other statements, and the same verdict and exposed
    actions. *)
Definition with_statements (sts : list Statement) (policy : Policy) : Policy :=
  {| statements := sts;
     is_internet_accessible := is_internet_accessible policy;
     internet_accessible_actions := internet_accessible_actions policy |}.

(** A parser followed by a transformation of the policy it returns. *)
Definition and_then (new_Policy : pyval -> outcome Policy) (g : Policy -> Policy)
    (document : pyval) : outcome Policy :=
  match new_Policy document with
  | Return policy => Return (g policy)
  | Raise e => Raise e
  end.

(** The documents a located value holds, by shape: a value that is not a
    list is one document; of a list, the false entries are skipped, a nested
    list contributes its elements and any other entry itself. *)
Definition documents (located : pyval) : list pyval :=
  match located with
  | PyList entries =>
      flat_map (fun entry =>
        if truthy entry
        then match entry with PyList nested => nested | _ => [entry] end
        else [])
        entries
  | _ => [located]
  end.

Section Specification.

Variable dpath_values : pyval -> string -> string -> outcome pyval.
Variable new_Policy : pyval -> outcome Policy.
Variable new_ARN : string -> ARN.
Variable inspect_entity : Entity.t -> Item -> gset string.
Variable self : ResourcePolicyAuditor.

(** The policies at one path: none when the path is not found. *)
Definition extract_path (item : Item) (key : string) : outcome (list Policy) :=
  match dpath_values (config item) key "$" with
  | Raise PathNotFound => Return []
  | Raise e => Raise e
  | Return located => comprehension new_Policy (documents located)
  end.

(** Path after path, the policies of all configured paths. *)
Definition extract (item : Item) : outcome (list Policy) :=
  match comprehension (extract_path item) (policy_keys self) with
  | Return found => Return (concat found)
  | Raise e => Raise e
  end.

(** A path holds no value: the query raises [PathNotFound], or returns the
    empty list of matches. *)
Definition no_value_at (item : Item) (key : string) : Prop :=
  dpath_values (config item) key "$" = Raise PathNotFound
  \/ dpath_values (config item) key "$" = Return (PyList []).

(** The parser does not raise [dpath]'s exception on a document found at
    [key]. *)
Definition parser_keeps_PathNotFound_out (item : Item) (key : string) : Prop :=
  forall located d,
    dpath_values (config item) key "$" = Return located ->
    d ∈ documents located ->
    new_Policy d <> Raise PathNotFound.

(** [policy] is one of the policies [load_policies] returns for [item]. *)
Definition extracted (item : Item) (policy : Policy) : Prop :=
  exists policies,
    load_policies dpath_values new_Policy self item = Return policies
    /\ policy ∈ policies.

(** The generic cross-account check of the specification: over the triples,
    skip those [skip] excludes, classify the entity and record a finding of
    category [c] when [tag] is among the tags. *)
Definition generic_cross_account (c : FindingCategory) (tag : string)
    (skip : Who.t -> bool) (item : Item) (policies : list Policy) : list Finding :=
  flat_map (fun '(_, statement, who) =>
    if skip who then []
    else if bool_decide (tag ∈ inspect_entity (Entity.from_tuple who) item)
         then [finding c item (Entity.from_tuple who) (list_of_set (actions statement))]
         else [])
    (allow_triples policies).

(** The two exclusions of the unknown check: the wildcard principal and the
    service principals. *)
Definition is_service_principal (who : Who.t) : bool :=
  String.eqb (Who.category who) "principal"
  && truthy (service (new_ARN (Who.value who))).

Definition unknown_skip (who : Who.t) : bool :=
  is_wildcard_principal who || is_service_principal who.

Definition service_entity (entity : Entity.t) : bool :=
  String.eqb (Entity.category entity) "principal"
  && truthy (service (new_ARN (Entity.value entity))).

(** What the unknown check appends: the generic check with its two
    exclusions, over the policies that are not internet accessible. *)
Definition unknown_findings (item : Item) (policies : list Policy) : list Finding :=
  generic_cross_account unknown "UNKNOWN" unknown_skip item
    (List.filter not_internet_accessible policies).

(** The condition under which the root check records a finding for a pair. *)
Definition root_qualifies (item : Item) (who : Who.t) : bool :=
  bool_decide (Who.category who ∈ ["arn"; "principal"])
  && negb (String.eqb (Who.value who) "*")
  && root (new_ARN (Who.value who))
  && negb (bool_decide (inspect_entity (Entity.from_tuple who) item
                          ∩ cross_account_tags = ∅)).

Definition root_findings (item : Item) (policies : list Policy) : list Finding :=
  flat_map (fun '(_, statement, who) =>
    if root_qualifies item who
    then [finding root_cross_account item (Entity.from_tuple who)
            (list_of_set (actions statement))]
    else [])
    (allow_triples policies).

(** The source of a finding of a cross-account check: one Allow statement of
    an extracted policy and one entity it grants. *)
Definition from_one_statement (item : Item) (f : Finding) : Prop :=
  exists policy statement who,
    extracted item policy
    /\ statement ∈ statements policy
    /\ effect statement = "Allow"
    /\ who ∈ whos_allowed statement
    /\ finding_entity f = Entity.from_tuple who
    /\ finding_actions f = list_of_set (actions statement).

(** The source of a finding of the internet check: one extracted policy. *)
Definition from_one_policy (item : Item) (f : Finding) : Prop :=
  exists policy,
    extracted item policy
    /\ is_internet_accessible policy = true
    /\ finding_entity f = {| Entity.category := "principal"; Entity.value := "*" |}
    /\ finding_actions f = list_of_set (internet_accessible_actions policy).

(** A check by its name, and its loop over already extracted policies. *)
Definition run_check (c : check) : Item -> M Sink unit :=
  match c with
  | Internet => check_internet_accessible dpath_values new_Policy self
  | Friendly => check_friendly_cross_account dpath_values new_Policy inspect_entity self
  | Thirdparty => check_thirdparty_cross_account dpath_values new_Policy inspect_entity self
  | Unknown => check_unknown_cross_account dpath_values new_Policy new_ARN inspect_entity self
  | Root => check_root_cross_account dpath_values new_Policy new_ARN inspect_entity self
  end.

Definition policy_loop (c : check) (item : Item) : Policy -> M Sink unit :=
  match c with
  | Internet => check_internet_accessible_policy item
  | Friendly => check_friendly_cross_account_policy inspect_entity item
  | Thirdparty => check_thirdparty_cross_account_policy inspect_entity item
  | Unknown => check_unknown_cross_account_policy new_ARN inspect_entity item
  | Root => check_root_cross_account_policy new_ARN inspect_entity item
  end.

(** What each check appends to the sink, from the extracted policies. *)
Definition findings_of (c : check) (item : Item) (policies : list Policy) : list Finding :=
  match c with
  | Internet => internet_findings item policies
  | Friendly => generic_cross_account friendly "FRIENDLY" no_skip item policies
  | Thirdparty => generic_cross_account thirdparty "THIRDPARTY" no_skip item policies
  | Unknown => unknown_findings item policies
  | Root => root_findings item policies
  end.

(** The outcome of a check: it raises what [load_policies] raises and leaves
    the sink alone, or appends its findings. *)
Definition check_result (item : Item) (F : list Policy -> list Finding) (s : Sink)
    : outcome unit * Sink :=
  match load_policies dpath_values new_Policy self item with
  | Return policies => (Return tt, s ++ F policies)
  | Raise e => (Raise e, s)
  end.

End Specification.

(** ** Stand-ins for the collaborators

    Small executable versions of the four collaborators, used to run the
    auditor on concrete items.  They follow the contracts the auditor relies
    on and nothing more: [values] follows a path through nested mappings,
    [Policy] reads [Statement] / [Effect] / [Action] / [Principal] and
    the [aws:SourceArn] condition key, [ARN] recognises account roots and
    service names, and the registry is a table from entity values to tags. *)

Module Standin.

Fixpoint assoc (k : string) (d : list (string * pyval)) : option pyval :=
  match d with
  | [] => None
  | (k', v) :: d' => if String.eqb k k' then Some v else assoc k d'
  end.

(** The segments of a path, cut at the separator. *)
Fixpoint split (sep : Ascii.ascii) (s : string) : list string :=
  match s with
  | EmptyString => [""]
  | String c s' =>
      if Ascii.eqb c sep then "" :: split sep s'
      else match split sep s' with
           | segment :: segments => String c segment :: segments
           | [] => [String c ""]
           end
  end.

(** The values of [v] at a path; the segment [*] matches every key. *)
Fixpoint search (segments : list string) (v : pyval) : list pyval :=
  match segments with
  | [] => [v]
  | segment :: segments' =>
      match v with
      | PyDict d =>
          flat_map (fun kv =>
            if String.eqb segment "*" || String.eqb segment (fst kv)
            then search segments' (snd kv)
            else [])
            d
      | _ => []
      end
  end.

Definition values (obj : pyval) (glob separator : string) : outcome pyval :=
  let sep := match separator with String c _ => c | EmptyString => Ascii.ascii_of_nat 47 end in
  match search (split sep glob) obj with
  | [] => Raise PathNotFound
  | found => Return (PyList found)
  end.

(** A string or a list of strings, as a list of strings. *)
Definition strings_of (v : pyval) : list string :=
  match v with
  | PyStr s => [s]
  | PyList l => flat_map (fun x => match x with PyStr s => [s] | _ => [] end) l
  | _ => []
  end.

Definition principals_of (v : pyval) : list string :=
  match v with
  | PyDict d => flat_map (fun kv => strings_of (snd kv)) d
  | _ => strings_of v
  end.

Definition source_arns_of (v : pyval) : list string :=
  match v with
  | PyDict operators =>
      flat_map (fun op =>
        match snd op with
        | PyDict keys =>
            flat_map (fun kv =>
              if String.eqb (fst kv) "aws:SourceArn" then strings_of (snd kv) else [])
              keys
        | _ => []
        end)
        operators
  | _ => []
  end.

Definition field (k : string) (d : list (string * pyval)) : pyval :=
  match assoc k d with Some v => v | None => PyNone end.

Definition statement_of (d : list (string * pyval)) : Statement :=
  {| effect := match field "Effect" d with PyStr s => s | _ => "" end;
     actions := list_to_set (strings_of (field "Action" d));
     whos_allowed :=
       map (fun v => {| Who.category := "principal"; Who.value := v |})
           (principals_of (field "Principal" d))
       ++ map (fun v => {| Who.category := "arn"; Who.value := v |})
              (source_arns_of (field "Condition" d)) |}.

(** A statement is internet accessible when it allows the wildcard
    principal and carries no condition. *)
Definition statement_internet_accessible (d : list (string * pyval)) : bool :=
  String.eqb (effect (statement_of d)) "Allow"
  && bool_decide ("*" ∈ principals_of (field "Principal" d))
  && negb (truthy (field "Condition" d)).

Definition statement_dicts (document : list (string * pyval)) : list (list (string * pyval)) :=
  match field "Statement" document with
  | PyDict d => [d]
  | PyList l => flat_map (fun x => match x with PyDict d => [d] | _ => [] end) l
  | _ => []
  end.

Definition Policy (document : pyval) : outcome Policy :=
  match document with
  | PyDict d =>
      match assoc "Statement" d with
      | None => Raise (Exception "KeyError")
      | Some _ =>
          let ds := statement_dicts d in
          let open := List.filter statement_internet_accessible ds in
          Return {| statements := map statement_of ds;
                    is_internet_accessible := negb (bool_decide (open = []));
                    internet_accessible_actions :=
                      ⋃ (map (fun d => actions (statement_of d)) open) |}
      end
  | _ => Raise (Exception "TypeError")
  end.

Definition ends_with (suffix s : string) : bool :=
  bool_decide (String.list_ascii_of_string suffix `suffix_of` String.list_ascii_of_string s).

Definition ARN (input : string) : ARN :=
  {| service := PyBool (ends_with ".amazonaws.com" input);
     root := String.prefix "arn:aws:iam::" input && ends_with ":root" input |}.

(** The registry: a table from entity values to tag sets. *)
Fixpoint inspect_entity (table : list (string * gset string))
    (entity : Entity.t) (item : Item) : gset string :=
  match table with
  | [] => ∅
  | (v, tags) :: table' =>
      if String.eqb v (Entity.value entity) then tags
      else inspect_entity table' entity item
  end.

(** An item with the documents [docs] under the key [Policy]. *)
Definition item_with (policy : pyval) : Item :=
  {| item_name := "bucket"; item_account := "000000000000";
     config := PyDict [("Policy", policy)] |}.

Definition statement_doc (eff : string) (principal : pyval) (acts : list string) : pyval :=
  PyDict [("Effect", PyStr eff); ("Principal", principal);
          ("Action", PyList (map PyStr acts))].

Definition policy_doc (stmts : list pyval) : pyval :=
  PyDict [("Version", PyStr "2012-10-17"); ("Statement", PyList stmts)].

End Standin.
(** ** Example items *)

Module Examples.
Import Standin.

Definition role_app : string := "arn:aws:iam::999999999999:role/app".
Definition root_111 : string := "arn:aws:iam::111111111111:root".
Definition sns : string := "sns.amazonaws.com".

Definition registry : Entity.t -> Item -> gset string :=
  inspect_entity [(root_111, {["THIRDPARTY"]}); (role_app, {["UNKNOWN"]});
                  (sns, {["UNKNOWN"]}); ("222222222222", {["FRIENDLY"]})].

(** A topic policy: one role may publish, on behalf of the SNS service named
    in an [aws:SourceArn] condition. *)
Definition conditioned_item : Item :=
  item_with (policy_doc [
    PyDict [("Effect", PyStr "Allow");
            ("Principal", PyDict [("AWS", PyStr "arn:aws:iam::000000000000:role/own")]);
            ("Action", PyStr "sns:Publish");
            ("Condition",
             PyDict [("ArnLike", PyDict [("aws:SourceArn", PyStr sns)])])]]).

(** A public bucket that also names a role of an unknown account. *)
Definition public_item : Item :=
  item_with (policy_doc [
    statement_doc "Allow" (PyStr "*") ["s3:GetObject"];
    statement_doc "Allow" (PyDict [("AWS", PyStr role_app)]) ["s3:PutObject"]]).

(** A friendly account allowed everything but one action: [NotAction], so
    no [Action]. *)
Definition not_action_item : Item :=
  item_with (policy_doc [
    PyDict [("Effect", PyStr "Allow");
            ("Principal", PyDict [("AWS", PyStr "222222222222")]);
            ("NotAction", PyStr "s3:DeleteBucket")]]).

(** A third-party root and a service principal, Allow and Deny. *)
Definition mixed_item : Item :=
  item_with (policy_doc [
    statement_doc "Allow" (PyDict [("AWS", PyList [PyStr root_111; PyStr role_app]);
                                   ("Service", PyStr sns)])
      ["s3:GetObject"; "s3:ListBucket"];
    statement_doc "Deny" (PyDict [("AWS", PyStr root_111)]) ["s3:DeleteObject"]]).

(** An item without a [Policy] key. *)
Definition bare_item : Item :=
  {| item_name := "queue"; item_account := "000000000000";
     config := PyDict [("QueueArn", PyStr "arn:aws:sqs:us-east-1:000000000000:q")] |}.

(** A function with several policies: one per alias (one of them null), a
    default one, and a list of two for a version. *)
Definition function_item : Item :=
  {| item_name := "function"; item_account := "000000000000";
     config :=
       PyDict [("Policies",
         PyDict [("Aliases",
                  PyDict [("live", policy_doc [statement_doc "Allow" (PyStr "*")
                                                 ["lambda:InvokeFunction"]]);
                          ("beta", PyNone)]);
                 ("DEFAULT", policy_doc [statement_doc "Deny" (PyStr "*")
                                           ["lambda:InvokeFunction"]]);
                 ("Versions",
                  PyDict [("1", PyList [policy_doc [];
                                        policy_doc [statement_doc "Allow"
                                                      (PyDict [("AWS", PyStr root_111)])
                                                      ["lambda:GetFunction"]]])])])] |}.

(** An auditor for such items, with one path per place. *)
Definition function_auditor : ResourcePolicyAuditor :=
  {| policy_keys := ["Policies$Aliases$*"; "Policies$DEFAULT"; "Policies$Versions$*";
                     "Policies$Layers$*"] |}.

End Examples.
(** A registry that answers as [Examples.registry] for the items named
    [bucket] and knows nothing of the others. *)
Definition bucket_registry (entity : Entity.t) (item : Item) : gset string :=
  if String.eqb (item_name item) "bucket" then Examples.registry entity item else ∅.

(** A public policy, as the policy library would return it, that also grants
    a role of an unknown account. *)
Definition public_policy : Policy :=
  {| statements :=
       [{| effect := "Allow"; actions := {[ "s3:GetObject" ]};
           whos_allowed := [{| Who.category := "principal"; Who.value := "*" |}] |};
        {| effect := "Allow"; actions := {[ "s3:PutObject" ]};
           whos_allowed := [{| Who.category := "principal";
                               Who.value := Examples.role_app |}] |}];
     is_internet_accessible := true;
     internet_accessible_actions := {[ "s3:GetObject" ]} |}.

(** ** Definitions for the further properties *)

(** The exception [e] comes from the path [key]: the query raises it, or
    the parser raises it on a document found there. *)
Definition raised_by (dpath_values : pyval -> string -> string -> outcome pyval)
    (new_Policy : pyval -> outcome Policy) (item : Item) (key : string) (e : exn) : Prop :=
  dpath_values (config item) key "$" = Raise e
  \/ exists located d,
       dpath_values (config item) key "$" = Return located
       /\ d ∈ documents located
       /\ new_Policy d = Raise e.


(** An auditor with the paths [keys]. *)
Definition with_keys (keys : list string) : ResourcePolicyAuditor :=
  {| policy_keys := keys |}.

(** A registry that knows every entity as one of the account itself. *)
Definition same_account_registry (entity : Entity.t) (item : Item) : gset string :=
  {[ "SAME" ]}.

(** A registry that adds two tags to those of [Examples.registry]. *)
Definition wider_registry (entity : Entity.t) (item : Item) : gset string :=
  Examples.registry entity item ∪ {[ "THIRDPARTY"; "UNKNOWN" ]}.

(** A registry for which everyone is friendly. *)
Definition friendly_wildcard_registry : Entity.t -> Item -> gset string :=
  Standin.inspect_entity [("*", {[ "FRIENDLY" ]})].

(** A policy whose only statement spells its effect in lower case. *)
Definition lowercase_policy : Policy :=
  {| statements :=
       [{| effect := "allow"; actions := {[ "s3:GetObject" ]};
           whos_allowed := [{| Who.category := "principal";
                               Who.value := Examples.root_111 |}] |}];
     is_internet_accessible := false;
     internet_accessible_actions := ∅ |}.

(** A parser that returns [policy] for every document. *)
Definition const_parser (policy : Policy) (document : pyval) : outcome Policy :=
  Return policy.

(** The paths of [Examples.function_auditor], the first two exchanged. *)
Definition swapped_keys : list string :=
  ["Policies$DEFAULT"; "Policies$Aliases$*"; "Policies$Versions$*"; "Policies$Layers$*"].

(** An item whose [Policy] key holds a list with a null in it. *)
Definition null_in_list_item : Item :=
  Standin.item_with (PyList [PyNone; Standin.policy_doc []]).

(** * Properties *)

(** ** Laws of the loops *)

(** A loop whose body only appends [g x] to the store appends the
    concatenation of the [g x]. *)
Lemma for_each_appends {A X} (g : A -> list X) (body : A -> M (list X) unit) l s :
  (forall x s, x ∈ l -> body x s = (Return tt, s ++ g x)) ->
  for_each l body s = (Return tt, s ++ flat_map g l).
Proof.
  revert s. induction l as [|x l IH]; intros s Hbody; simpl.
  - unfold ret. by rewrite app_nil_r.
  - unfold bind. rewrite Hbody by left.
    rewrite IH by (intros y s' Hy; apply Hbody; by right).
    by rewrite app_assoc.
Qed.

(** Two loops on related stores: when the bodies keep the relation [R] of
    the stores and end the same way, so do the loops. *)
Lemma for_each_related {A St St'} (R : St -> St')
    (body : A -> M St unit) (body' : A -> M St' unit) l s :
  (forall x s, body' x (R s) = (fst (body x s), R (snd (body x s)))) ->
  for_each l body' (R s) = (fst (for_each l body s), R (snd (for_each l body s))).
Proof.
  intros Hbody. revert s. induction l as [|x l IH]; intros s; [reflexivity|].
  simpl. unfold bind. rewrite Hbody.
  destruct (body x s) as [[[]|e] s1]; simpl; [apply IH | reflexivity].
Qed.

Lemma flat_map_flat_map {A B C} (f : A -> list B) (g : B -> list C) l :
  flat_map g (flat_map f l) = flat_map (fun x => flat_map g (f x)) l.
Proof.
  induction l as [|x l IH]; simpl; [reflexivity|].
  by rewrite flat_map_app, IH.
Qed.

Lemma flat_map_map {A B C} (f : A -> B) (g : B -> list C) l :
  flat_map g (map f l) = flat_map (fun x => g (f x)) l.
Proof. induction l as [|x l IH]; simpl; [reflexivity | by rewrite IH]. Qed.

Lemma flat_map_if_singleton {A B} (q : A -> bool) (g : A -> B) l :
  flat_map (fun x => if q x then [g x] else []) l = map g (List.filter q l).
Proof.
  induction l as [|x l IH]; simpl; [reflexivity|].
  destruct (q x); simpl; by rewrite IH.
Qed.

Lemma flat_map_filter_nil {A B} (keep : A -> bool) (k : A -> list B) l :
  (forall x, keep x = false -> k x = []) ->
  flat_map k (List.filter keep l) = flat_map k l.
Proof.
  intros Hk. induction l as [|x l IH]; simpl; [reflexivity|].
  destruct (keep x) eqn:Hx; simpl; [by rewrite IH|].
  by rewrite IH, (Hk x Hx).
Qed.

Lemma elem_of_flat_map {A B} (f : A -> list B) (l : list A) (y : B) :
  y ∈ flat_map f l <-> exists x, x ∈ l /\ y ∈ f x.
Proof.
  rewrite list_elem_of_In, in_flat_map.
  split; intros (x & Hx & Hy); exists x; split; by apply list_elem_of_In.
Qed.

Lemma drop_length_app {A} (s F : list A) : drop (length s) (s ++ F) = F.
Proof. by rewrite drop_app_length. Qed.

Lemma ret_appends (s : Sink) : ret tt s = (Return tt, s ++ []).
Proof. unfold ret. by rewrite app_nil_r. Qed.

Lemma comprehension_app {A B} (f : A -> outcome B) l1 l2 :
  comprehension f (l1 ++ l2) =
  match comprehension f l1 with
  | Raise e => Raise e
  | Return ys =>
      match comprehension f l2 with
      | Raise e => Raise e
      | Return zs => Return (ys ++ zs)
      end
  end.
Proof.
  induction l1 as [|x l1 IH]; simpl.
  - by destruct (comprehension f l2).
  - destruct (f x) as [y|e]; [|reflexivity]. rewrite IH.
    destruct (comprehension f l1) as [ys|e]; [|reflexivity].
    by destruct (comprehension f l2).
Qed.

Lemma comprehension_raise {A B} (f : A -> outcome B) l e :
  comprehension f l = Raise e -> exists x, x ∈ l /\ f x = Raise e.
Proof.
  induction l as [|x l IH]; simpl; [discriminate|].
  destruct (f x) as [y|e'] eqn:Hx.
  - destruct (comprehension f l) as [ys|e'']; [discriminate|].
    intros [= ->]. destruct IH as (x' & Hin & Hx'); [reflexivity|].
    exists x'. split; [by right | exact Hx'].
  - intros [= ->]. exists x. split; [by left | exact Hx].
Qed.

Lemma comprehension_and_then new_Policy (g : Policy -> Policy) l :
  comprehension (and_then new_Policy g) l =
  match comprehension new_Policy l with
  | Return ps => Return (map g ps)
  | Raise e => Raise e
  end.
Proof.
  induction l as [|d l IH]; simpl; [reflexivity|]. unfold and_then at 1.
  destruct (new_Policy d) as [p|e]; [|reflexivity]. rewrite IH.
  by destruct (comprehension new_Policy l).
Qed.

(** ** The triples *)

Lemma allow_triples_cons policy policies :
  allow_triples (policy :: policies) = allow_triples [policy] ++ allow_triples policies.
Proof. unfold allow_triples. simpl. by rewrite app_nil_r. Qed.

Lemma elem_of_allow_triples policies policy statement who :
  (policy, statement, who) ∈ allow_triples policies <->
  policy ∈ policies /\ statement ∈ statements policy
  /\ effect statement = "Allow" /\ who ∈ whos_allowed statement.
Proof.
  unfold allow_triples. rewrite elem_of_flat_map. split.
  - intros (p & Hp & H). apply elem_of_flat_map in H as (st & Hst & H).
    destruct (String.eqb (effect st) "Allow") eqn:Heff; [|by apply elem_of_nil in H].
    apply list_elem_of_fmap in H as (w & [= -> -> ->] & Hw).
    by apply String.eqb_eq in Heff.
  - intros (Hp & Hst & Heff & Hw). exists policy. split; [done|].
    apply elem_of_flat_map. exists statement. split; [done|].
    apply String.eqb_eq in Heff. rewrite Heff.
    apply list_elem_of_fmap. by exists who.
Qed.

Lemma flat_map_allow_triples {B} (h : Statement -> Who.t -> list B) policies :
  flat_map (fun '(_, statement, who) => h statement who) (allow_triples policies)
  = flat_map (fun policy =>
      flat_map (fun statement =>
        if String.eqb (effect statement) "Allow"
        then flat_map (h statement) (whos_allowed statement)
        else [])
        (statements policy))
      policies.
Proof.
  unfold allow_triples. rewrite flat_map_flat_map. apply flat_map_ext. intros policy.
  rewrite flat_map_flat_map. apply flat_map_ext. intros statement.
  destruct (String.eqb (effect statement) "Allow"); [|reflexivity].
  by rewrite flat_map_map.
Qed.

Lemma deny_is_not_allow statement :
  negb (is_deny statement) = false -> String.eqb (effect statement) "Allow" = false.
Proof.
  unfold is_deny. intros H. apply negb_false_iff, String.eqb_eq in H. by rewrite H.
Qed.

Lemma flat_map_allow_triples_without_deny {B} (h : Statement -> Who.t -> list B) policies :
  flat_map (fun '(_, statement, who) => h statement who)
    (allow_triples (map without_deny policies))
  = flat_map (fun '(_, statement, who) => h statement who) (allow_triples policies).
Proof.
  rewrite !flat_map_allow_triples, flat_map_map. apply flat_map_ext. intros policy.
  simpl. apply flat_map_filter_nil. intros statement Hdeny.
  by rewrite (deny_is_not_allow statement Hdeny).
Qed.

Lemma filter_map_without_deny policies :
  List.filter not_internet_accessible (map without_deny policies)
  = map without_deny (List.filter not_internet_accessible policies).
Proof.
  induction policies as [|p ps IH]; [reflexivity|].
  cbn [map List.filter].
  change (not_internet_accessible (without_deny p)) with (not_internet_accessible p).
  destruct (not_internet_accessible p); cbn [map]; by rewrite IH.
Qed.

(** The statement loop shared by the four cross-account checks: when the
    innermost body only appends [h statement who], the loop over one policy
    appends the [h] of its Allow triples. *)
Lemma allow_loop_appends (h : Statement -> Who.t -> list Finding)
    (body : Statement -> Who.t -> M Sink unit) policy s :
  (forall statement who s, body statement who s = (Return tt, s ++ h statement who)) ->
  for_each (statements policy) (fun statement =>
    if negb (String.eqb (effect statement) "Allow") then continue
    else for_each (whos_allowed statement) (body statement)) s
  = (Return tt, s ++ flat_map (fun '(_, statement, who) => h statement who)
                       (allow_triples [policy])).
Proof.
  intros Hbody. unfold allow_triples. simpl. rewrite app_nil_r.
  rewrite flat_map_flat_map.
  apply for_each_appends. intros statement s' _.
  destruct (String.eqb (effect statement) "Allow"); simpl.
  - rewrite flat_map_map. apply for_each_appends. intros who s'' _. apply Hbody.
  - unfold continue, ret. by rewrite app_nil_r.
Qed.

(** A loop over the policies whose body appends [F [policy]], for an [F]
    that distributes over the list of policies, appends [F policies]. *)
Lemma policies_loop_appends (F : list Policy -> list Finding)
    (body : Policy -> M Sink unit) policies s :
  (forall policy s, body policy s = (Return tt, s ++ F [policy])) ->
  (forall policy policies, F (policy :: policies) = F [policy] ++ F policies) ->
  F [] = [] ->
  for_each policies body s = (Return tt, s ++ F policies).
Proof.
  intros Hbody Hcons Hnil.
  rewrite (for_each_appends (fun policy => F [policy])) by (intros; apply Hbody).
  do 2 f_equal. induction policies as [|p ps IH]; simpl; [by rewrite Hnil|].
  by rewrite IH, <- Hcons.
Qed.

(** ** What each loop records *)

Section Characterisation.

Variable new_ARN : string -> ARN.
Variable inspect_entity : Entity.t -> Item -> gset string.

Lemma generic_cross_account_cons c tag skip item policy policies :
  generic_cross_account inspect_entity c tag skip item (policy :: policies)
  = generic_cross_account inspect_entity c tag skip item [policy]
    ++ generic_cross_account inspect_entity c tag skip item policies.
Proof.
  unfold generic_cross_account. by rewrite allow_triples_cons, flat_map_app.
Qed.

Lemma root_findings_cons item policy policies :
  root_findings new_ARN inspect_entity item (policy :: policies)
  = root_findings new_ARN inspect_entity item [policy]
    ++ root_findings new_ARN inspect_entity item policies.
Proof. unfold root_findings. by rewrite allow_triples_cons, flat_map_app. Qed.

Lemma unknown_findings_cons item policy policies :
  unknown_findings new_ARN inspect_entity item (policy :: policies)
  = unknown_findings new_ARN inspect_entity item [policy]
    ++ unknown_findings new_ARN inspect_entity item policies.
Proof.
  unfold unknown_findings. simpl.
  destruct (not_internet_accessible policy); [|reflexivity].
  apply generic_cross_account_cons.
Qed.

Lemma internet_findings_cons item policy policies :
  internet_findings item (policy :: policies)
  = internet_findings item [policy] ++ internet_findings item policies.
Proof. unfold internet_findings. simpl. by rewrite app_nil_r. Qed.

Lemma check_internet_accessible_policy_appends item policy s :
  check_internet_accessible_policy item policy s
  = (Return tt, s ++ internet_findings item [policy]).
Proof.
  unfold check_internet_accessible_policy, internet_findings. simpl.
  destruct (is_internet_accessible policy); [reflexivity | apply ret_appends].
Qed.

Lemma check_friendly_cross_account_policy_appends item policy s :
  check_friendly_cross_account_policy inspect_entity item policy s
  = (Return tt,
     s ++ generic_cross_account inspect_entity friendly "FRIENDLY" no_skip item [policy]).
Proof.
  unfold check_friendly_cross_account_policy, generic_cross_account.
  apply (allow_loop_appends (fun statement who => _)).
  intros statement who s'. simpl.
  destruct (bool_decide _); [reflexivity | apply ret_appends].
Qed.

Lemma check_thirdparty_cross_account_policy_appends item policy s :
  check_thirdparty_cross_account_policy inspect_entity item policy s
  = (Return tt,
     s ++ generic_cross_account inspect_entity thirdparty "THIRDPARTY" no_skip item [policy]).
Proof.
  unfold check_thirdparty_cross_account_policy, generic_cross_account.
  apply (allow_loop_appends (fun statement who => _)).
  intros statement who s'. simpl.
  destruct (bool_decide _); [reflexivity | apply ret_appends].
Qed.

Lemma check_unknown_cross_account_policy_appends item policy s :
  check_unknown_cross_account_policy new_ARN inspect_entity item policy s
  = (Return tt, s ++ unknown_findings new_ARN inspect_entity item [policy]).
Proof.
  unfold check_unknown_cross_account_policy, unknown_findings, not_internet_accessible.
  simpl. destruct (is_internet_accessible policy); simpl; [apply ret_appends|].
  unfold generic_cross_account. apply (allow_loop_appends (fun statement who => _)).
  intros statement who s'.
  unfold unknown_skip, is_wildcard_principal, is_service_principal.
  destruct (String.eqb (Who.value who) "*" && String.eqb (Who.category who) "principal");
    simpl; [apply ret_appends|].
  destruct (String.eqb (Who.category who) "principal" && _); simpl; [apply ret_appends|].
  destruct (bool_decide _); [reflexivity | apply ret_appends].
Qed.

Lemma check_root_cross_account_policy_appends item policy s :
  check_root_cross_account_policy new_ARN inspect_entity item policy s
  = (Return tt, s ++ root_findings new_ARN inspect_entity item [policy]).
Proof.
  unfold check_root_cross_account_policy, root_findings.
  apply (allow_loop_appends (fun statement who => _)).
  intros statement who s'. unfold root_qualifies.
  destruct (bool_decide (Who.category who ∈ _)); simpl; [|apply ret_appends].
  destruct (String.eqb (Who.value who) "*"); simpl; [apply ret_appends|].
  destruct (root _); simpl; [|apply ret_appends].
  destruct (bool_decide _); simpl; [apply ret_appends | reflexivity].
Qed.

End Characterisation.

Section Run.

Variable dpath_values : pyval -> string -> string -> outcome pyval.
Variable new_Policy : pyval -> outcome Policy.
Variable new_ARN : string -> ARN.
Variable inspect_entity : Entity.t -> Item -> gset string.
Variable self : ResourcePolicyAuditor.

Lemma policy_loop_appends c item policies s :
  for_each policies (policy_loop new_ARN inspect_entity c item) s
  = (Return tt, s ++ findings_of new_ARN inspect_entity c item policies).
Proof.
  destruct c; simpl; apply policies_loop_appends; try reflexivity.
  - apply check_internet_accessible_policy_appends.
  - apply internet_findings_cons.
  - apply check_friendly_cross_account_policy_appends.
  - apply generic_cross_account_cons.
  - apply check_thirdparty_cross_account_policy_appends.
  - apply generic_cross_account_cons.
  - apply check_unknown_cross_account_policy_appends.
  - apply unknown_findings_cons.
  - apply check_root_cross_account_policy_appends.
  - apply root_findings_cons.
Qed.

Lemma run_check_loop c item s :
  run_check dpath_values new_Policy new_ARN inspect_entity self c item s
  = bind (lift (load_policies dpath_values new_Policy self item))
         (fun policies => for_each policies (policy_loop new_ARN inspect_entity c item)) s.
Proof. by destruct c. Qed.

Lemma run_check_spec c item s :
  run_check dpath_values new_Policy new_ARN inspect_entity self c item s
  = check_result dpath_values new_Policy self item
      (findings_of new_ARN inspect_entity c item) s.
Proof.
  rewrite run_check_loop. unfold bind, lift, check_result.
  destruct (load_policies _ _ _ _); [apply policy_loop_appends | reflexivity].
Qed.

Lemma new_findings_spec c item s :
  new_findings (run_check dpath_values new_Policy new_ARN inspect_entity self c item) s =
  match load_policies dpath_values new_Policy self item with
  | Return policies => findings_of new_ARN inspect_entity c item policies
  | Raise _ => []
  end.
Proof.
  unfold new_findings. rewrite run_check_spec. unfold check_result.
  destruct (load_policies _ _ _ _); simpl.
  - apply drop_length_app.
  - by rewrite drop_all.
Qed.

Lemma raised_spec c item s :
  raised (run_check dpath_values new_Policy new_ARN inspect_entity self c item) s =
  match load_policies dpath_values new_Policy self item with
  | Return _ => None
  | Raise e => Some e
  end.
Proof.
  unfold raised. rewrite run_check_spec. unfold check_result.
  by destruct (load_policies _ _ _ _).
Qed.

End Run.

(** ** Where a finding comes from *)

Section Provenance.

Variable new_ARN : string -> ARN.
Variable inspect_entity : Entity.t -> Item -> gset string.

Lemma elem_of_generic_cross_account c tag skip item policies f :
  f ∈ generic_cross_account inspect_entity c tag skip item policies <->
  exists policy statement who,
    (policy, statement, who) ∈ allow_triples policies
    /\ skip who = false
    /\ tag ∈ inspect_entity (Entity.from_tuple who) item
    /\ f = finding c item (Entity.from_tuple who) (list_of_set (actions statement)).
Proof.
  unfold generic_cross_account. rewrite elem_of_flat_map. split.
  - intros ([[policy statement] who] & Htriple & H).
    exists policy, statement, who. split; [done|].
    destruct (skip who); [by apply elem_of_nil in H|].
    case_bool_decide as Htag; [|by apply elem_of_nil in H].
    apply list_elem_of_singleton in H. done.
  - intros (policy & statement & who & Htriple & Hskip & Htag & ->).
    exists (policy, statement, who). split; [done|].
    rewrite Hskip, bool_decide_eq_true_2 by done. by left.
Qed.

Lemma elem_of_root_findings item policies f :
  f ∈ root_findings new_ARN inspect_entity item policies <->
  exists policy statement who,
    (policy, statement, who) ∈ allow_triples policies
    /\ root_qualifies new_ARN inspect_entity item who = true
    /\ f = finding root_cross_account item (Entity.from_tuple who)
             (list_of_set (actions statement)).
Proof.
  unfold root_findings. rewrite elem_of_flat_map. split.
  - intros ([[policy statement] who] & Htriple & H).
    exists policy, statement, who. split; [done|].
    destruct (root_qualifies _ _ item who); [|by apply elem_of_nil in H].
    apply list_elem_of_singleton in H. done.
  - intros (policy & statement & who & Htriple & Hq & ->).
    exists (policy, statement, who). split; [done|]. rewrite Hq. by left.
Qed.

Lemma elem_of_internet_findings item policies f :
  f ∈ internet_findings item policies <->
  exists policy,
    policy ∈ policies /\ is_internet_accessible policy = true
    /\ f = finding internet item everyone
             (list_of_set (internet_accessible_actions policy)).
Proof.
  unfold internet_findings. rewrite elem_of_flat_map. split.
  - intros (policy & Hp & H). exists policy. split; [done|].
    destruct (is_internet_accessible policy); [|by apply elem_of_nil in H].
    apply list_elem_of_singleton in H. done.
  - intros (policy & Hp & Hacc & ->). exists policy. split; [done|].
    rewrite Hacc. by left.
Qed.

End Provenance.

(** ** Policy extraction *)

Lemma documents_cons p entries :
  documents (PyList (p :: entries))
  = documents (PyList [p]) ++ documents (PyList entries).
Proof. cbn [documents flat_map]. by rewrite app_nil_r. Qed.

Section Extraction.

Variable dpath_values : pyval -> string -> string -> outcome pyval.
Variable new_Policy : pyval -> outcome Policy.
Variable self : ResourcePolicyAuditor.

(** The loop over the entries of a located sequence. *)
#[local] Abbreviation entry_body :=
  (fun p : pyval =>
     if negb (truthy p) then continue
     else match p with
          | PyList l' =>
              ps <- lift (comprehension new_Policy l') ;;
              modify (fun policies => policies ++ ps)
          | _ =>
              p' <- lift (new_Policy p) ;;
              modify (fun policies : list Policy => policies ++ [p'])
          end).

Lemma entry_body_spec p (policies : list Policy) :
  entry_body p policies =
  match comprehension new_Policy (documents (PyList [p])) with
  | Return ps => (Return tt, policies ++ ps)
  | Raise e => (Raise e, policies)
  end.
Proof.
  cbn [documents flat_map]. rewrite app_nil_r.
  destruct (truthy p) eqn:Hp; cbn [negb].
  - destruct p; simpl; unfold bind, lift;
      try (destruct (new_Policy _); reflexivity).
    destruct (comprehension new_Policy l); reflexivity.
  - simpl. unfold continue, ret. by rewrite app_nil_r.
Qed.

Lemma entries_loop entries (policies : list Policy) :
  exists policies',
  for_each entries entry_body policies =
  match comprehension new_Policy (documents (PyList entries)) with
  | Return ps => (Return tt, policies ++ ps)
  | Raise e => (Raise e, policies')
  end.
Proof.
  revert policies. induction entries as [|p entries IH]; intros policies.
  - exists policies. simpl. unfold ret. by rewrite app_nil_r.
  - rewrite documents_cons.
    + rewrite comprehension_app. cbn [for_each]. unfold bind at 1.
      rewrite entry_body_spec.
      destruct (comprehension new_Policy (documents (PyList [p]))) as [ps|e].
      * destruct (IH (policies ++ ps)) as [policies' ->].
        exists policies'.
        destruct (comprehension new_Policy _) as [ps'|e]; [|reflexivity].
        by rewrite app_assoc.
      * by exists policies.
Qed.

(** The [try] block, for one path. *)
Lemma load_policies_try_spec item key (policies : list Policy) :
  exists policies',
  load_policies_try dpath_values new_Policy item key policies =
  match dpath_values (config item) key "$" with
  | Raise e => (Raise e, policies)
  | Return located =>
      match comprehension new_Policy (documents located) with
      | Return ps => (Return tt, policies ++ ps)
      | Raise e => (Raise e, policies')
      end
  end.
Proof.
  unfold load_policies_try, bind at 1, lift at 1.
  destruct (dpath_values (config item) key "$") as [located|e]; [|by exists policies].
  destruct located; try apply entries_loop;
    exists policies; simpl; unfold bind, lift; by destruct (new_Policy _).
Qed.

Lemma keys_loop item keys (policies : list Policy) :
  (forall key, key ∈ keys -> parser_keeps_PathNotFound_out dpath_values new_Policy item key) ->
  exists policies',
  for_each keys
    (fun key => try_except_PathNotFound
                  (load_policies_try dpath_values new_Policy item key) continue)
    policies =
  match comprehension (extract_path dpath_values new_Policy item) keys with
  | Return found => (Return tt, policies ++ concat found)
  | Raise e => (Raise e, policies')
  end.
Proof.
  revert policies. induction keys as [|key keys IH]; intros policies Hparser.
  - exists policies. simpl. unfold ret. by rewrite app_nil_r.
  - assert (Hkey := Hparser key ltac:(by left)).
    assert (Hkeys : forall k, k ∈ keys -> parser_keeps_PathNotFound_out dpath_values new_Policy item k)
      by (intros k Hk; apply Hparser; by right).
    cbn [for_each comprehension]. unfold bind at 1, try_except_PathNotFound at 1.
    destruct (load_policies_try_spec item key policies)
      as [policies1 ->].
    unfold extract_path at 1. unfold parser_keeps_PathNotFound_out in Hkey.
    destruct (dpath_values (config item) key "$") as [located|[|msg]].
    + destruct (comprehension new_Policy (documents located)) as [ps|e] eqn:Hps.
      * destruct (IH (policies ++ ps) Hkeys) as [policies' ->].
        exists policies'.
        destruct (comprehension _ keys) as [found|e]; [|reflexivity].
        simpl. by rewrite app_assoc.
      * exists policies1.
        apply comprehension_raise in Hps as (d & Hd & Hraise).
        destruct e as [|msg]; [|reflexivity].
        by destruct (Hkey located d eq_refl Hd).
    + cbv beta iota. unfold continue at 1, ret at 1.
      destruct (IH policies Hkeys) as [policies' ->]. exists policies'.
      destruct (comprehension _ keys); [|reflexivity].
      reflexivity.
    + by exists policies.
Qed.

Lemma load_policies_extract item :
  (forall key, key ∈ policy_keys self -> parser_keeps_PathNotFound_out dpath_values new_Policy item key) ->
  load_policies dpath_values new_Policy self item
  = extract dpath_values new_Policy self item.
Proof.
  intros Hparser. unfold load_policies, extract.
  destruct (keys_loop item (policy_keys self) [] Hparser) as [policies' ->].
  by destruct (comprehension _ (policy_keys self)).
Qed.

Lemma extract_no_value item :
  (forall key, key ∈ policy_keys self -> no_value_at dpath_values item key) ->
  extract dpath_values new_Policy self item = Return [].
Proof.
  intros Hnone. unfold extract.
  assert (H : comprehension (extract_path dpath_values new_Policy item) (policy_keys self)
              = Return (map (fun _ => []) (policy_keys self))).
  { induction (policy_keys self) as [|key keys IH]; [reflexivity|].
    simpl. unfold extract_path at 1.
    destruct (Hnone key ltac:(by left)) as [-> | ->]; simpl;
      (rewrite IH by (intros k Hk; apply Hnone; by right)); reflexivity. }
  rewrite H. f_equal. clear.
  induction (policy_keys self) as [|key keys IH]; [reflexivity | exact IH].
Qed.

Lemma load_policies_no_value item :
  (forall key, key ∈ policy_keys self -> no_value_at dpath_values item key) ->
  load_policies dpath_values new_Policy self item = Return [].
Proof.
  intros Hnone. rewrite load_policies_extract; [by apply extract_no_value|].
  intros key Hkey located d Hloc Hd.
  destruct (Hnone key Hkey) as [H | H]; rewrite H in Hloc; [discriminate|].
  injection Hloc as <-. by apply elem_of_nil in Hd.
Qed.

End Extraction.

(** *** A parser followed by a transformation

    [load_policies] with the parser [and_then new_Policy g] returns the
    policies of [load_policies] with [new_Policy], each under [g], and raises
    as it does. *)

Section AndThen.

Variable dpath_values : pyval -> string -> string -> outcome pyval.
Variable new_Policy : pyval -> outcome Policy.
Variable self : ResourcePolicyAuditor.
Variable g : Policy -> Policy.

Lemma load_policies_try_and_then item key (policies : list Policy) :
  load_policies_try dpath_values (and_then new_Policy g) item key (map g policies)
  = (fst (load_policies_try dpath_values new_Policy item key policies),
     map g (snd (load_policies_try dpath_values new_Policy item key policies))).
Proof.
  unfold load_policies_try, bind at 1 2 3, lift at 1 2 3.
  destruct (dpath_values (config item) key "$") as [located|e]; [|reflexivity].
  assert (Hone : forall d (ps : list Policy),
            bind (lift (and_then new_Policy g d))
              (fun p' => modify (fun policies => policies ++ [p'])) (map g ps)
            = (fst (bind (lift (new_Policy d))
                      (fun p' => modify (fun policies => policies ++ [p'])) ps),
               map g (snd (bind (lift (new_Policy d))
                             (fun p' => modify (fun policies => policies ++ [p'])) ps)))).
  { intros d ps. unfold bind, lift, and_then, modify.
    destruct (new_Policy d); simpl; [by rewrite map_app | reflexivity]. }
  destruct located; try apply Hone.
  apply (for_each_related (map g)). intros p ps.
  rewrite (entry_body_spec (and_then new_Policy g)), (entry_body_spec new_Policy).
  rewrite comprehension_and_then.
  destruct (comprehension new_Policy _); simpl; [by rewrite map_app | reflexivity].
Qed.

Lemma load_policies_and_then item :
  load_policies dpath_values (and_then new_Policy g) self item =
  match load_policies dpath_values new_Policy self item with
  | Return policies => Return (map g policies)
  | Raise e => Raise e
  end.
Proof.
  unfold load_policies.
  change (@nil Policy) with (map g []) at 1.
  rewrite (for_each_related (map g)
             (fun key => try_except_PathNotFound
                           (load_policies_try dpath_values new_Policy item key) continue)).
  - by destruct (for_each _ _ _) as [[[]|e] policies].
  - intros key policies. unfold try_except_PathNotFound.
    rewrite load_policies_try_and_then.
    by destruct (load_policies_try dpath_values new_Policy item key policies)
      as [[[]|[|msg]] policies'].
Qed.

End AndThen.

(** ** Deny statements and registries *)

Section Findings.

Variable new_ARN : string -> ARN.

Lemma findings_of_without_deny inspect_entity c item policies :
  findings_of new_ARN inspect_entity c item (map without_deny policies)
  = findings_of new_ARN inspect_entity c item policies.
Proof.
  destruct c; simpl.
  - unfold internet_findings. by rewrite flat_map_map.
  - apply (flat_map_allow_triples_without_deny (fun statement who => _)).
  - apply (flat_map_allow_triples_without_deny (fun statement who => _)).
  - unfold unknown_findings. rewrite filter_map_without_deny.
    apply (flat_map_allow_triples_without_deny (fun statement who => _)).
  - apply (flat_map_allow_triples_without_deny (fun statement who => _)).
Qed.

Lemma findings_of_ext (inspect1 inspect2 : Entity.t -> Item -> gset string) c item policies :
  (forall entity, inspect1 entity item = inspect2 entity item) ->
  findings_of new_ARN inspect1 c item policies
  = findings_of new_ARN inspect2 c item policies.
Proof.
  intros Hagree.
  assert (Hgeneric : forall cat tag skip ps,
            generic_cross_account inspect1 cat tag skip item ps
            = generic_cross_account inspect2 cat tag skip item ps).
  { intros cat tag skip ps. unfold generic_cross_account.
    apply flat_map_ext. intros [[policy statement] who]. by rewrite Hagree. }
  destruct c; simpl; [reflexivity | apply Hgeneric | apply Hgeneric | apply Hgeneric |].
  unfold root_findings, root_qualifies.
  apply flat_map_ext. intros [[policy statement] who]. by rewrite Hagree.
Qed.

Lemma root_qualifies_iff inspect_entity item who :
  root_qualifies new_ARN inspect_entity item who = true <->
  (Who.category who = "arn" \/ Who.category who = "principal")
  /\ Who.value who <> "*"
  /\ root (new_ARN (Who.value who)) = true
  /\ inspect_entity (Entity.from_tuple who) item
       ∩ {[ "FRIENDLY"; "THIRDPARTY"; "UNKNOWN" ]} <> ∅.
Proof.
  unfold root_qualifies, cross_account_tags.
  rewrite !andb_true_iff, !negb_true_iff, bool_decide_eq_true, bool_decide_eq_false.
  rewrite String.eqb_neq. rewrite !elem_of_cons, elem_of_nil. tauto.
Qed.

End Findings.

(** ** The stand-ins *)

Lemma Standin_Policy_not_PathNotFound document :
  Standin.Policy document <> Raise PathNotFound.
Proof.
  destruct document; simpl; try discriminate.
  destruct (Standin.assoc "Statement" d); discriminate.
Defined.

Lemma bare_item_has_no_policy key :
  key ∈ policy_keys init -> no_value_at Standin.values Examples.bare_item key.
Proof.
  intros Hkey. apply list_elem_of_singleton in Hkey. subst key. left. reflexivity.
Defined.

(** ** The scenarios of the specification *)

(** Scenario A: one Allow statement granting the wildcard principal
    [s3:GetObject]: one [internet] finding. *)
Example scenario_A :
  new_findings
    (check_internet_accessible Standin.values Standin.Policy init
       (Standin.item_with
          (Standin.policy_doc [Standin.statement_doc "Allow" (PyStr "*") ["s3:GetObject"]])))
    []
  = [finding internet
       (Standin.item_with
          (Standin.policy_doc [Standin.statement_doc "Allow" (PyStr "*") ["s3:GetObject"]]))
       everyone ["s3:GetObject"]].
Proof. vm_compute. reflexivity. Qed.

(** Scenario B: the same statement with effect [Deny]: no finding from any
    check. *)
Example scenario_B (c : check) :
  new_findings
    (run_check Standin.values Standin.Policy Standin.ARN Examples.registry init c
       (Standin.item_with
          (Standin.policy_doc [Standin.statement_doc "Deny" (PyStr "*") ["s3:GetObject"]])))
    []
  = [].
Proof. destruct c; vm_compute; reflexivity. Qed.

(** Scenario C: the root of a third-party account: one [root-cross-account]
    finding. *)
Example scenario_C :
  map finding_entity
    (new_findings
       (check_root_cross_account Standin.values Standin.Policy Standin.ARN
          Examples.registry init Examples.mixed_item) [])
  = [{| Entity.category := "principal"; Entity.value := Examples.root_111 |}].
Proof. vm_compute. reflexivity. Qed.

(** Scenario D: a role the registry does not know: no finding from the
    cross-account checks. *)
Example scenario_D (c : check) :
  c <> Internet ->
  new_findings
    (run_check Standin.values Standin.Policy Standin.ARN (fun _ _ => ∅) init c
       (Standin.item_with
          (Standin.policy_doc
             [Standin.statement_doc "Allow" (PyDict [("AWS", PyStr Examples.role_app)])
                ["s3:GetObject"]])))
    []
  = [].
Proof. destruct c; intros Hc; [done|vm_compute; reflexivity..]. Qed.

(** [load_policies] on an item with several policies: the null alias is
    skipped, the list of the version contributes its two documents and the
    missing path nothing. *)
Example function_item_policies :
  match load_policies Standin.values Standin.Policy Examples.function_auditor
          Examples.function_item with
  | Return policies => map (fun policy => length (statements policy)) policies
  | Raise _ => []
  end = [1; 1; 0; 1].
Proof. vm_compute. reflexivity. Qed.

(** A null inside the list of a version is not skipped: the parser is
    called on it and its exception is passed on. *)
Example null_in_nested_list :
  load_policies Standin.values Standin.Policy init
    (Standin.item_with (PyList [PyNone; Standin.policy_doc []]))
  = Raise (Exception "TypeError").
Proof. vm_compute. reflexivity. Qed.

(** * The claims *)

(** ** C1: service principals *)

(** C1, as stated, fails: an entity of category [arn] whose value the ARN
    parser marks as a service, and which the registry tags [UNKNOWN], is
    recorded by [check_unknown_cross_account]. *)
Lemma C1_service_entity_of_category_arn_is_flagged :
  exists f,
    f ∈ new_findings
          (check_unknown_cross_account Standin.values Standin.Policy Standin.ARN
             Examples.registry init Examples.conditioned_item) []
    /\ finding_entity f = {| Entity.category := "arn"; Entity.value := Examples.sns |}
    /\ service (Standin.ARN (Entity.value (finding_entity f))) <> PyNone
    /\ truthy (service (Standin.ARN (Entity.value (finding_entity f)))) = true.
Proof.
  eexists. split; [|split; [|split]].
  - vm_compute. left.
  - reflexivity.
  - vm_compute. discriminate.
  - vm_compute. reflexivity.
Qed.

Section ServicePrincipals.

Variable dpath_values : pyval -> string -> string -> outcome pyval.
Variable new_Policy : pyval -> outcome Policy.
Variable new_ARN : string -> ARN.
Variable inspect_entity : Entity.t -> Item -> gset string.
Variable self : ResourcePolicyAuditor.

(** C1 (amended): [check_unknown_cross_account] records no finding for an
    entity of category [principal] whose parsed ARN has a true [service]
    field, whatever the registry says of it; [check_root_cross_account]
    records a finding only for an entity whose parsed ARN has [root] set. *)
Theorem C1_service_principals item s :
  Forall (fun f => service_entity new_ARN (finding_entity f) = false)
    (new_findings
       (check_unknown_cross_account dpath_values new_Policy new_ARN inspect_entity self item) s)
  /\ Forall (fun f => root (new_ARN (Entity.value (finding_entity f))) = true)
       (new_findings
          (check_root_cross_account dpath_values new_Policy new_ARN inspect_entity self item) s).
Proof.
  split; apply Forall_forall; intros f Hf.
  - pose proof (new_findings_spec dpath_values new_Policy new_ARN inspect_entity self
                  Unknown item s) as H.
    cbn [run_check findings_of] in H. rewrite H in Hf. clear H.
    destruct (load_policies _ _ _ _) as [policies|e]; [|by apply elem_of_nil in Hf].
    apply elem_of_generic_cross_account in Hf
      as (policy & statement & who & _ & Hskip & _ & ->).
    unfold unknown_skip in Hskip. apply orb_false_iff in Hskip as [_ Hservice].
    exact Hservice.
  - pose proof (new_findings_spec dpath_values new_Policy new_ARN inspect_entity self
                  Root item s) as H.
    cbn [run_check findings_of] in H. rewrite H in Hf. clear H.
    destruct (load_policies _ _ _ _) as [policies|e]; [|by apply elem_of_nil in Hf].
    apply elem_of_root_findings in Hf as (policy & statement & who & _ & Hq & ->).
    apply root_qualifies_iff in Hq as (_ & _ & Hroot & _).
    exact Hroot.
Qed.

End ServicePrincipals.

(** ** C2: the three tag checks *)

(** C2, as stated, fails: on a policy that is internet accessible the
    generic check for [UNKNOWN], with the two exclusions, records the role
    the registry tags [UNKNOWN]; [check_unknown_cross_account] records
    nothing. *)
Lemma C2_unknown_is_not_the_generic_check :
  exists policies,
    load_policies Standin.values Standin.Policy init Examples.public_item
    = Return policies
    /\ new_findings
         (check_unknown_cross_account Standin.values Standin.Policy Standin.ARN
            Examples.registry init Examples.public_item) [] = []
    /\ map finding_entity
         (generic_cross_account Examples.registry unknown "UNKNOWN"
            (unknown_skip Standin.ARN) Examples.public_item policies)
       = [{| Entity.category := "principal"; Entity.value := Examples.role_app |}].
Proof.
  eexists. split; [vm_compute; reflexivity|]. split.
  - vm_compute. reflexivity.
  - vm_compute. reflexivity.
Qed.

Section GenericCheck.

Variable dpath_values : pyval -> string -> string -> outcome pyval.
Variable new_Policy : pyval -> outcome Policy.
Variable new_ARN : string -> ARN.
Variable inspect_entity : Entity.t -> Item -> gset string.
Variable self : ResourcePolicyAuditor.

(** C2 (amended): the friendly, third-party and unknown checks are the
    generic cross-account check for the tags [FRIENDLY], [THIRDPARTY] and
    [UNKNOWN]: over the same (policy, Allow statement, granted entity)
    triples they record a finding exactly when the tag is in the registry's
    answer.  The unknown check differs in two ways: it leaves out every
    policy that is internet accessible, and before classification it skips
    the wildcard principal and the service principals. *)
Theorem C2_cross_account_checks_are_generic item s :
  check_friendly_cross_account dpath_values new_Policy inspect_entity self item s
  = check_result dpath_values new_Policy self item
      (generic_cross_account inspect_entity friendly "FRIENDLY" no_skip item) s
  /\ check_thirdparty_cross_account dpath_values new_Policy inspect_entity self item s
     = check_result dpath_values new_Policy self item
         (generic_cross_account inspect_entity thirdparty "THIRDPARTY" no_skip item) s
  /\ check_unknown_cross_account dpath_values new_Policy new_ARN inspect_entity self item s
     = check_result dpath_values new_Policy self item
         (fun policies =>
            generic_cross_account inspect_entity unknown "UNKNOWN" (unknown_skip new_ARN)
              item (List.filter not_internet_accessible policies)) s.
Proof.
  split; [|split].
  - exact (run_check_spec dpath_values new_Policy new_ARN inspect_entity self
             Friendly item s).
  - exact (run_check_spec dpath_values new_Policy new_ARN inspect_entity self
             Thirdparty item s).
  - exact (run_check_spec dpath_values new_Policy new_ARN inspect_entity self
             Unknown item s).
Qed.

End GenericCheck.

(** ** C3: Deny statements *)

Section Deny.

Variable dpath_values : pyval -> string -> string -> outcome pyval.
Variable new_Policy : pyval -> outcome Policy.
Variable new_ARN : string -> ARN.
Variable inspect_entity : Entity.t -> Item -> gset string.
Variable self : ResourcePolicyAuditor.

(** C3: a [Deny] statement contributes no finding to any of the five
    checks.  Each check records the same findings, in the same order, and
    ends the same way when every [Deny] statement is taken out of the
    policies the parser returns; and so does its loop over any list of
    policies.  (The four cross-account checks skip every statement whose
    effect is not [Allow]; the internet check reads no statement, only the
    verdict of the policy.) *)
Theorem C3_deny_statements_record_nothing (c : check) item s :
  run_check dpath_values (and_then new_Policy without_deny) new_ARN inspect_entity self
    c item s
  = run_check dpath_values new_Policy new_ARN inspect_entity self c item s
  /\ forall policies,
       for_each (map without_deny policies) (policy_loop new_ARN inspect_entity c item) s
       = for_each policies (policy_loop new_ARN inspect_entity c item) s.
Proof.
  split.
  - rewrite !run_check_spec. unfold check_result.
    rewrite load_policies_and_then.
    destruct (load_policies dpath_values new_Policy self item) as [policies|e];
      [|reflexivity].
    by rewrite findings_of_without_deny.
  - intros policies. rewrite !policy_loop_appends.
    by rewrite findings_of_without_deny.
Qed.

End Deny.

(** ** C4: the internet check *)

Section Internet.

Variable dpath_values : pyval -> string -> string -> outcome pyval.
Variable new_Policy : pyval -> outcome Policy.
Variable self : ResourcePolicyAuditor.

(** C4: [check_internet_accessible] records one [internet] finding for each
    extracted policy whose verdict is true, in order, and none for the
    others.  The entity of each is the everyone entity ([principal], [*]);
    its action list enumerates, without duplicates, the set of actions the
    policy exposes to the internet; and neither depends on the statements of
    the policy. *)
Theorem C4_one_internet_finding_per_policy item s :
  check_internet_accessible dpath_values new_Policy self item s
  = check_result dpath_values new_Policy self item
      (fun policies =>
         map (fun policy =>
                {| finding_category := internet;
                   finding_item := item;
                   finding_entity := {| Entity.category := "principal"; Entity.value := "*" |};
                   finding_actions := list_of_set (internet_accessible_actions policy) |})
             (List.filter is_internet_accessible policies)) s
  /\ (forall policy,
        NoDup (list_of_set (internet_accessible_actions policy))
        /\ forall a, a ∈ list_of_set (internet_accessible_actions policy)
                     <-> a ∈ internet_accessible_actions policy)
  /\ (forall policy sts s',
        check_internet_accessible_policy item (with_statements sts policy) s'
        = check_internet_accessible_policy item policy s').
Proof.
  split; [|split].
  - unfold check_internet_accessible, check_result, bind, lift.
    destruct (load_policies dpath_values new_Policy self item) as [policies|e];
      [|reflexivity].
    rewrite (policies_loop_appends (internet_findings item)).
    + unfold internet_findings.
      by rewrite (flat_map_if_singleton is_internet_accessible
                    (fun policy => finding internet item everyone
                                     (list_of_set (internet_accessible_actions policy)))).
    + apply check_internet_accessible_policy_appends.
    + apply internet_findings_cons.
    + reflexivity.
  - intros policy. split; [apply NoDup_elements | intros a; apply elem_of_elements].
  - reflexivity.
Qed.

End Internet.

(** ** C5: the root check *)

Section RootCheck.

Variable dpath_values : pyval -> string -> string -> outcome pyval.
Variable new_Policy : pyval -> outcome Policy.
Variable new_ARN : string -> ARN.
Variable inspect_entity : Entity.t -> Item -> gset string.
Variable self : ResourcePolicyAuditor.

(** C5: [check_root_cross_account] records one [root-cross-account] finding
    for each (Allow statement, granted entity) pair that qualifies, in
    iteration order, and nothing else; a pair qualifies exactly when the
    category is [arn] or [principal], the value is not [*], the parsed ARN
    has [root] set and the registry's tags meet
    {FRIENDLY, THIRDPARTY, UNKNOWN}. *)
Theorem C5_one_root_finding_per_qualifying_pair item s :
  check_root_cross_account dpath_values new_Policy new_ARN inspect_entity self item s
  = check_result dpath_values new_Policy self item
      (fun policies =>
         map (fun '(_, statement, who) =>
                {| finding_category := root_cross_account;
                   finding_item := item;
                   finding_entity := Entity.from_tuple who;
                   finding_actions := list_of_set (actions statement) |})
             (List.filter (fun '(_, _, who) => root_qualifies new_ARN inspect_entity item who)
                (allow_triples policies))) s
  /\ forall who,
       root_qualifies new_ARN inspect_entity item who = true <->
       (Who.category who = "arn" \/ Who.category who = "principal")
       /\ Who.value who <> "*"
       /\ root (new_ARN (Who.value who)) = true
       /\ inspect_entity (Entity.from_tuple who) item
            ∩ {[ "FRIENDLY"; "THIRDPARTY"; "UNKNOWN" ]} <> ∅.
Proof.
  split; [|apply root_qualifies_iff].
  etrans;
    [exact (run_check_spec dpath_values new_Policy new_ARN inspect_entity self
              Root item s)|].
  unfold check_result. cbn [findings_of].
  destruct (load_policies _ _ _ _); [|reflexivity].
  unfold root_findings. do 2 f_equal.
  rewrite <- flat_map_if_singleton. apply flat_map_ext. by intros [[policy statement] who].
Qed.

End RootCheck.

(** ** C6 and C7: policy extraction *)

Section NoPolicy.

Variable dpath_values : pyval -> string -> string -> outcome pyval.
Variable new_Policy : pyval -> outcome Policy.
Variable new_ARN : string -> ARN.
Variable inspect_entity : Entity.t -> Item -> gset string.
Variable self : ResourcePolicyAuditor.

(** C6: when the configuration of an item has no value at any of the
    configured paths, [load_policies] returns the empty list, and each of the
    five checks returns normally and leaves the sink as it found it. *)
Theorem C6_no_value_no_findings item s :
  (forall key, key ∈ policy_keys self -> no_value_at dpath_values item key) ->
  load_policies dpath_values new_Policy self item = Return []
  /\ forall c : check,
       run_check dpath_values new_Policy new_ARN inspect_entity self c item s
       = (Return tt, s).
Proof.
  intros Hnone.
  pose proof (load_policies_no_value dpath_values new_Policy self item Hnone) as Hload.
  split; [exact Hload|]. intros c.
  rewrite run_check_spec. unfold check_result. rewrite Hload.
  destruct c; simpl; by rewrite app_nil_r.
Qed.

(** C7: [load_policies] handles each located value by its shape
    ([documents]: a value that is not a list is one document; of a list,
    the null and empty entries are skipped, a nested list contributes its
    elements and any other entry itself), wraps every document as a
    [Policy], and returns the policies of all configured paths, path after
    path, in the order of discovery ([extract]).  A path that is not found
    contributes nothing; any other exception is passed on. *)
Theorem C7_load_policies_by_shape item :
  (forall document, new_Policy document <> Raise PathNotFound) ->
  load_policies dpath_values new_Policy self item
  = extract dpath_values new_Policy self item.
Proof.
  intros Hparser. apply load_policies_extract.
  intros key Hkey located d Hlocated Hd. apply Hparser.
Qed.

End NoPolicy.

Lemma C6_no_value_no_findings_witness :
  (forall key, key ∈ policy_keys init ->
               no_value_at Standin.values Examples.bare_item key)
  /\ load_policies Standin.values Standin.Policy init Examples.bare_item = Return []
  /\ forall c : check,
       run_check Standin.values Standin.Policy Standin.ARN Examples.registry init
         c Examples.bare_item []
       = (Return tt, []).
Proof.
  split; [exact bare_item_has_no_policy|].
  apply C6_no_value_no_findings. exact bare_item_has_no_policy.
Defined.

Lemma C7_load_policies_by_shape_witness :
  (forall document, Standin.Policy document <> Raise PathNotFound)
  /\ load_policies Standin.values Standin.Policy Examples.function_auditor
       Examples.function_item
     = extract Standin.values Standin.Policy Examples.function_auditor
         Examples.function_item.
Proof.
  split; [exact Standin_Policy_not_PathNotFound|].
  apply C7_load_policies_by_shape. exact Standin_Policy_not_PathNotFound.
Defined.

(** ** C8: what a finding refers to *)

(** C8, as stated, fails: a statement that uses [NotAction] has no actions,
    and the finding recorded for the friendly account it allows carries an
    empty action list. *)
Lemma C8_finding_with_empty_action_list :
  exists f,
    f ∈ new_findings
          (check_friendly_cross_account Standin.values Standin.Policy
             Examples.registry init Examples.not_action_item) []
    /\ finding_actions f = [].
Proof.
  eexists. split.
  - vm_compute. left.
  - reflexivity.
Qed.

Section Source.

Variable dpath_values : pyval -> string -> string -> outcome pyval.
Variable new_Policy : pyval -> outcome Policy.
Variable new_ARN : string -> ARN.
Variable inspect_entity : Entity.t -> Item -> gset string.
Variable self : ResourcePolicyAuditor.

(** C8 (amended): every finding a check records is of the check's category
    and refers to the audited item and to one entity.  A finding of a
    cross-account check takes its entity and its action list, which may be
    empty, from one Allow statement of an extracted policy; a finding of the
    internet check has the everyone entity and the set of actions the policy
    exposes to the internet. *)
Theorem C8_findings_refer_to_their_source (c : check) item s :
  Forall (fun f =>
            finding_category f = category_of c
            /\ finding_item f = item
            /\ match c with
               | Internet => from_one_policy dpath_values new_Policy self item f
               | _ => from_one_statement dpath_values new_Policy self item f
               end)
    (new_findings (run_check dpath_values new_Policy new_ARN inspect_entity self c item) s).
Proof.
  apply Forall_forall. intros f Hf. rewrite new_findings_spec in Hf.
  destruct (load_policies dpath_values new_Policy self item) as [policies|e] eqn:Hload;
    [|by apply elem_of_nil in Hf].
  assert (Hex : forall policy, policy ∈ policies ->
                 extracted dpath_values new_Policy self item policy)
    by (intros policy Hp; by exists policies).
  assert (Hgeneric : forall cat tag skip ps,
            (forall policy, policy ∈ ps -> policy ∈ policies) ->
            f ∈ generic_cross_account inspect_entity cat tag skip item ps ->
            finding_category f = cat /\ finding_item f = item
            /\ from_one_statement dpath_values new_Policy self item f).
  { intros cat tag skip ps Hsub H.
    apply elem_of_generic_cross_account in H
      as (policy & statement & who & Htriple & _ & _ & ->).
    apply elem_of_allow_triples in Htriple as (Hp & Hst & Heff & Hw).
    split; [reflexivity|]. split; [reflexivity|].
    exists policy, statement, who. auto 10. }
  destruct c; cbn [findings_of category_of] in *.
  - apply elem_of_internet_findings in Hf as (policy & Hp & Hacc & ->).
    split; [reflexivity|]. split; [reflexivity|]. exists policy. auto.
  - by apply Hgeneric in Hf.
  - by apply Hgeneric in Hf.
  - apply Hgeneric in Hf; [done|].
    intros policy Hp. apply list_elem_of_In, filter_In in Hp as [Hp _].
    by apply list_elem_of_In.
  - apply elem_of_root_findings in Hf as (policy & statement & who & Htriple & _ & ->).
    apply elem_of_allow_triples in Htriple as (Hp & Hst & Heff & Hw).
    split; [reflexivity|]. split; [reflexivity|].
    exists policy, statement, who. auto 10.
Qed.

End Source.

(** ** C9: running a check twice *)

Section Determinism.

Variable dpath_values : pyval -> string -> string -> outcome pyval.
Variable new_Policy : pyval -> outcome Policy.
Variable new_ARN : string -> ARN.
Variable self : ResourcePolicyAuditor.

(** C9: a check run a second time on the same item, with the same paths and
    collaborators and a registry that answers every entity of the item as in
    the first run, records the same findings as the first run, as a
    multiset, and ends the same way. *)
Theorem C9_checks_are_deterministic
    (inspect1 inspect2 : Entity.t -> Item -> gset string) (c : check) item s :
  (forall entity, inspect1 entity item = inspect2 entity item) ->
  let first := run_check dpath_values new_Policy new_ARN inspect1 self c item in
  let second := run_check dpath_values new_Policy new_ARN inspect2 self c item in
  new_findings second (snd (first s)) ≡ₚ new_findings first s
  /\ raised second (snd (first s)) = raised first s.
Proof.
  intros Hagree first second. subst first second.
  rewrite !new_findings_spec, !raised_spec.
  split; [|reflexivity].
  destruct (load_policies _ _ _ _); [|reflexivity].
  by rewrite (findings_of_ext new_ARN inspect1 inspect2).
Qed.

End Determinism.

Lemma C9_checks_are_deterministic_witness :
  let first := run_check Standin.values Standin.Policy Standin.ARN Examples.registry
                 init Root Examples.mixed_item in
  let second := run_check Standin.values Standin.Policy Standin.ARN bucket_registry
                  init Root Examples.mixed_item in
  (forall entity,
     Examples.registry entity Examples.mixed_item
     = bucket_registry entity Examples.mixed_item)
  /\ new_findings second (snd (first [])) ≡ₚ new_findings first []
  /\ raised second (snd (first [])) = raised first [].
Proof.
  split; [intros entity; reflexivity|].
  apply (C9_checks_are_deterministic Standin.values Standin.Policy Standin.ARN init
           Examples.registry bucket_registry Root Examples.mixed_item []).
  intros entity. reflexivity.
Defined.

(** ** C10: internet-accessible policies and the unknown check *)

Section UnknownCheck.

Variable new_ARN : string -> ARN.
Variable inspect_entity : Entity.t -> Item -> gset string.

(** C10: on a policy whose internet verdict is true,
    [check_unknown_cross_account] records nothing, whatever the statements
    of the policy grant and whatever the registry says of the entities: the
    loop over the extracted policies records the same with and without that
    policy. *)
Theorem C10_unknown_skips_internet_accessible_policies item policy s :
  is_internet_accessible policy = true ->
  check_unknown_cross_account_policy new_ARN inspect_entity item policy s
  = (Return tt, s)
  /\ forall before after,
       for_each (before ++ policy :: after)
         (check_unknown_cross_account_policy new_ARN inspect_entity item) s
       = for_each (before ++ after)
           (check_unknown_cross_account_policy new_ARN inspect_entity item) s.
Proof.
  intros Hacc. split.
  - unfold check_unknown_cross_account_policy. by rewrite Hacc.
  - intros before after.
    pose proof (policy_loop_appends new_ARN inspect_entity Unknown item) as H.
    cbn [policy_loop findings_of] in H. rewrite !H. unfold unknown_findings.
    rewrite !List.filter_app. cbn [List.filter].
    unfold not_internet_accessible at 2. by rewrite Hacc.
Qed.

End UnknownCheck.

Lemma C10_unknown_skips_internet_accessible_policies_witness :
  is_internet_accessible public_policy = true
  /\ check_unknown_cross_account_policy Standin.ARN Examples.registry
       Examples.public_item public_policy []
     = (Return tt, [])
  /\ forall before after,
       for_each (before ++ public_policy :: after)
         (check_unknown_cross_account_policy Standin.ARN Examples.registry
            Examples.public_item) []
       = for_each (before ++ after)
           (check_unknown_cross_account_policy Standin.ARN Examples.registry
              Examples.public_item) [].
Proof.
  split; [reflexivity|].
  apply (C10_unknown_skips_internet_accessible_policies Standin.ARN Examples.registry
           Examples.public_item public_policy []).
  reflexivity.
Defined.

(** * Further properties of the extraction *)

Lemma for_each_app {St A} (l1 l2 : list A) (body : A -> M St unit) s :
  for_each (l1 ++ l2) body s =
  match for_each l1 body s with
  | (Return _, s') => for_each l2 body s'
  | (Raise e, s') => (Raise e, s')
  end.
Proof.
  revert s. induction l1 as [|x l1 IH]; intros s; simpl; [reflexivity|].
  unfold bind at 1 2. destruct (body x s) as [[[]|e] s']; [apply IH | reflexivity].
Qed.

Section ExtractionLoop.

Variable dpath_values : pyval -> string -> string -> outcome pyval.
Variable new_Policy : pyval -> outcome Policy.

(** The loop of [load_policies] over the paths, on the list [policies]. *)
#[local] Abbreviation keys_body item :=
  (fun key : string =>
     try_except_PathNotFound (load_policies_try dpath_values new_Policy item key) continue).

(** The [try] block only appends: what is already in [policies] stays in
    front, and does not change what the block does. *)
Lemma load_policies_try_frame item key (before policies : list Policy) :
  load_policies_try dpath_values new_Policy item key (before ++ policies)
  = (fst (load_policies_try dpath_values new_Policy item key policies),
     before ++ snd (load_policies_try dpath_values new_Policy item key policies)).
Proof.
  unfold load_policies_try, bind at 1 2 3, lift at 1 2 3.
  destruct (dpath_values (config item) key "$") as [located|e]; [|reflexivity].
  assert (Hone : forall d (ps : list Policy),
            bind (lift (new_Policy d))
              (fun p' => modify (fun policies => policies ++ [p'])) (before ++ ps)
            = (fst (bind (lift (new_Policy d))
                      (fun p' => modify (fun policies => policies ++ [p'])) ps),
               before ++ snd (bind (lift (new_Policy d))
                                (fun p' => modify (fun policies => policies ++ [p'])) ps))).
  { intros d ps. unfold bind, lift, modify.
    destruct (new_Policy d); simpl; [by rewrite app_assoc | reflexivity]. }
  destruct located; try apply Hone.
  apply (for_each_related (app before)). intros p ps.
  rewrite !(entry_body_spec new_Policy).
  destruct (comprehension new_Policy _); simpl; [by rewrite app_assoc | reflexivity].
Qed.

Lemma keys_loop_frame item keys (before policies : list Policy) :
  for_each keys (keys_body item) (before ++ policies)
  = (fst (for_each keys (keys_body item) policies),
     before ++ snd (for_each keys (keys_body item) policies)).
Proof.
  apply (for_each_related (app before)). intros key ps.
  unfold try_except_PathNotFound. rewrite load_policies_try_frame.
  by destruct (load_policies_try dpath_values new_Policy item key ps)
    as [[[]|[|msg]] ps'].
Qed.

Lemma keys_body_not_PathNotFound item key (policies : list Policy) :
  fst (keys_body item key policies) <> Raise PathNotFound.
Proof.
  unfold try_except_PathNotFound.
  by destruct (load_policies_try dpath_values new_Policy item key policies)
    as [[[]|[|msg]] ps'].
Qed.

Lemma keys_loop_not_PathNotFound item keys (policies : list Policy) :
  fst (for_each keys (keys_body item) policies) <> Raise PathNotFound.
Proof.
  revert policies. induction keys as [|key keys IH]; intros policies; [done|].
  cbn [for_each]. unfold bind.
  pose proof (keys_body_not_PathNotFound item key policies) as Hkey.
  destruct (keys_body item key policies) as [[[]|e] ps']; [apply IH | exact Hkey].
Qed.

Lemma keys_loop_raise item keys (policies policies' : list Policy) e :
  for_each keys (keys_body item) policies = (Raise e, policies') ->
  exists key, key ∈ keys /\ raised_by dpath_values new_Policy item key e.
Proof.
  revert policies. induction keys as [|key keys IH]; intros policies; [discriminate|].
  cbn [for_each]. unfold bind, try_except_PathNotFound.
  destruct (load_policies_try_spec dpath_values new_Policy item key policies)
    as [ps1 ->].
  destruct (dpath_values (config item) key "$") as [located|e0] eqn:Hq.
  - destruct (comprehension new_Policy (documents located)) as [ps|e0] eqn:Hps.
    + intros H. apply IH in H as (k & Hk & Hr). exists k. split; [by right | exact Hr].
    + apply comprehension_raise in Hps as (d & Hd & Hraise).
      destruct e0 as [|msg].
      * intros H. apply IH in H as (k & Hk & Hr). exists k. split; [by right | exact Hr].
      * intros [= <- _]. exists key. split; [by left|]. right.
        by exists located, d.
  - destruct e0 as [|msg].
    + intros H. apply IH in H as (k & Hk & Hr). exists k. split; [by right | exact Hr].
    + intros [= <- _]. exists key. split; [by left|]. left. exact Hq.
Qed.

End ExtractionLoop.

Section ExtractionProperties.

Variable dpath_values : pyval -> string -> string -> outcome pyval.
Variable new_Policy : pyval -> outcome Policy.
Variable self : ResourcePolicyAuditor.

(** X1: [load_policies] never raises [PathNotFound], whatever the path
    query and the parser do: the [except] clause catches it wherever in the
    [try] block it is raised, also when the parser raises it. *)
Theorem X1_load_policies_never_raises_PathNotFound item :
  load_policies dpath_values new_Policy self item <> Raise PathNotFound.
Proof.
  unfold load_policies.
  pose proof (keys_loop_not_PathNotFound dpath_values new_Policy item
                (policy_keys self) []) as H.
  destruct (for_each _ _ _) as [[[]|e] policies]; simpl in H; congruence.
Qed.

(** X2: an exception of [load_policies] is never of its own making: it is
    one that the path query raised on a configured path, or that the parser
    raised on a document found at a configured path. *)
Theorem X2_load_policies_passes_exceptions_on item e :
  load_policies dpath_values new_Policy self item = Raise e ->
  exists key,
    key ∈ policy_keys self /\ raised_by dpath_values new_Policy item key e.
Proof.
  unfold load_policies.
  destruct (for_each _ _ _) as [[[]|e'] policies] eqn:Hloop; [discriminate|].
  intros [= ->]. by apply keys_loop_raise in Hloop.
Qed.

End ExtractionProperties.

Section ExtractionComposes.

Variable dpath_values : pyval -> string -> string -> outcome pyval.
Variable new_Policy : pyval -> outcome Policy.

Lemma load_policies_with_keys_app keys1 keys2 item :
  load_policies dpath_values new_Policy (with_keys (keys1 ++ keys2)) item =
  match load_policies dpath_values new_Policy (with_keys keys1) item with
  | Raise e => Raise e
  | Return policies1 =>
      match load_policies dpath_values new_Policy (with_keys keys2) item with
      | Raise e => Raise e
      | Return policies2 => Return (policies1 ++ policies2)
      end
  end.
Proof.
  unfold load_policies, with_keys. cbn [policy_keys].
  rewrite for_each_app.
  destruct (for_each keys1 _ []) as [[[]|e] policies1]; [|reflexivity].
  rewrite <- (app_nil_r policies1) at 1.
  rewrite (keys_loop_frame dpath_values new_Policy item keys2 policies1 []).
  by destruct (for_each keys2 _ []) as [[[]|e] policies2].
Qed.

(** X3: the paths are handled one after the other and independently: with
    the paths [keys1 ++ keys2], [load_policies] returns the policies of
    [keys1] followed by those of [keys2], and raises the first exception
    either of them raises. *)
Theorem X3_load_policies_of_appended_paths keys1 keys2 item :
  load_policies dpath_values new_Policy (with_keys (keys1 ++ keys2)) item =
  match load_policies dpath_values new_Policy (with_keys keys1) item with
  | Raise e => Raise e
  | Return policies1 =>
      match load_policies dpath_values new_Policy (with_keys keys2) item with
      | Raise e => Raise e
      | Return policies2 => Return (policies1 ++ policies2)
      end
  end.
Proof. apply load_policies_with_keys_app. Qed.

Lemma load_policies_with_keys_cons key keys item policies :
  load_policies dpath_values new_Policy (with_keys (key :: keys)) item = Return policies ->
  exists policies1 policies2,
    load_policies dpath_values new_Policy (with_keys [key]) item = Return policies1
    /\ load_policies dpath_values new_Policy (with_keys keys) item = Return policies2
    /\ policies = policies1 ++ policies2.
Proof.
  rewrite (load_policies_with_keys_app [key] keys).
  destruct (load_policies _ _ (with_keys [key]) item) as [ps1|e]; [|discriminate].
  destruct (load_policies _ _ (with_keys keys) item) as [ps2|e]; [|discriminate].
  intros [= <-]. by exists ps1, ps2.
Qed.

Lemma load_policies_with_keys_Permutation keys keys' item policies :
  keys ≡ₚ keys' ->
  load_policies dpath_values new_Policy (with_keys keys) item = Return policies ->
  exists policies',
    load_policies dpath_values new_Policy (with_keys keys') item = Return policies'
    /\ policies ≡ₚ policies'.
Proof.
  intros Hperm. revert policies.
  induction Hperm as [|key keys keys' _ IH|key1 key2 keys|keys keys' keys'' _ IH1 _ IH2];
    intros policies Hload.
  - by exists policies.
  - apply load_policies_with_keys_cons in Hload as (ps1 & ps2 & H1 & H2 & ->).
    destruct (IH ps2 H2) as (ps2' & H2' & Hperm2).
    exists (ps1 ++ ps2'). split; [|by rewrite Hperm2].
    by rewrite (load_policies_with_keys_app [key] keys'), H1, H2'.
  - apply load_policies_with_keys_cons in Hload as (ps2 & ps & H2 & Hload & ->).
    apply load_policies_with_keys_cons in Hload as (ps1 & ps3 & H1 & H3 & ->).
    exists (ps1 ++ ps2 ++ ps3). split.
    + rewrite (load_policies_with_keys_app [key1] (key2 :: keys)), H1.
      by rewrite (load_policies_with_keys_app [key2] keys), H2, H3.
    + apply Permutation_app_swap_app.
  - destruct (IH1 policies Hload) as (ps' & Hload' & Hperm1).
    destruct (IH2 ps' Hload') as (ps'' & Hload'' & Hperm2).
    exists ps''. split; [done | by rewrite Hperm1].
Qed.

End ExtractionComposes.

Lemma X2_load_policies_passes_exceptions_on_witness :
  load_policies Standin.values Standin.Policy init null_in_list_item
  = Raise (Exception "TypeError")
  /\ exists key,
       key ∈ policy_keys init
       /\ raised_by Standin.values Standin.Policy null_in_list_item key
            (Exception "TypeError").
Proof.
  split; [reflexivity|].
  apply (X2_load_policies_passes_exceptions_on Standin.values Standin.Policy init
           null_in_list_item (Exception "TypeError")).
  reflexivity.
Defined.

(** * Further properties of the checks *)

Lemma flat_map_sublist {A B} (f g : A -> list B) l :
  (forall x, f x `sublist_of` g x) -> flat_map f l `sublist_of` flat_map g l.
Proof.
  intros Hfg. induction l as [|x l IH]; simpl; [constructor|].
  by apply sublist_app.
Qed.


Lemma filter_Permutation_list {A} (q : A -> bool) (l l' : list A) :
  l ≡ₚ l' -> List.filter q l ≡ₚ List.filter q l'.
Proof.
  induction 1 as [|x l l' _ IH|x y l|l l' l'' _ IH1 _ IH2]; simpl.
  - done.
  - destruct (q x); [by constructor | done].
  - destruct (q x), (q y); try done. apply perm_swap.
  - by etrans.
Qed.


Lemma cross_account_tags_mono (tags tags' : gset string) :
  tags ⊆ tags' -> tags ∩ cross_account_tags <> ∅ -> tags' ∩ cross_account_tags <> ∅.
Proof.
  intros Hsub Hne Hempty. apply set_choose_L in Hne as [tag Htag].
  apply elem_of_intersection in Htag as [Hin Htag].
  apply (not_elem_of_empty (C:=gset string) tag). rewrite <- Hempty.
  apply elem_of_intersection. split; [by apply Hsub | exact Htag].
Qed.

Section CheckProperties.

Variable dpath_values : pyval -> string -> string -> outcome pyval.
Variable new_Policy : pyval -> outcome Policy.
Variable new_ARN : string -> ARN.
Variable inspect_entity : Entity.t -> Item -> gset string.
Variable self : ResourcePolicyAuditor.

#[local] Abbreviation run := (run_check dpath_values new_Policy new_ARN inspect_entity self).
#[local] Abbreviation load := (load_policies dpath_values new_Policy self).


(** X5: every finding of a tag check is backed by the registry: the entity
    of a friendly, third-party or unknown finding carries the tag
    [FRIENDLY], [THIRDPARTY] or [UNKNOWN] for the audited item. *)
Theorem X5_tag_findings_carry_their_tag item s :
  Forall (fun f => "FRIENDLY" ∈ inspect_entity (finding_entity f) item)
    (new_findings (run Friendly item) s)
  /\ Forall (fun f => "THIRDPARTY" ∈ inspect_entity (finding_entity f) item)
       (new_findings (run Thirdparty item) s)
  /\ Forall (fun f => "UNKNOWN" ∈ inspect_entity (finding_entity f) item)
       (new_findings (run Unknown item) s).
Proof.
  rewrite !new_findings_spec. cbn [findings_of]. unfold unknown_findings.
  destruct (load item) as [policies|e]; [|by repeat split].
  repeat split; apply Forall_forall; intros f Hf;
    apply elem_of_generic_cross_account in Hf
      as (policy & statement & who & _ & _ & Htag & ->); exact Htag.
Qed.

(** X6: the friendly and third-party checks miss nothing: for every Allow
    statement of an extracted policy and every entity it grants that the
    registry tags [FRIENDLY] ([THIRDPARTY]), a friendly (third-party)
    finding with that entity and the actions of that statement is recorded;
    the wildcard principal, the service principals and the policies that
    are internet accessible are no exception. *)
Theorem X6_friendly_and_thirdparty_miss_nothing item s policies policy statement who :
  load item = Return policies ->
  policy ∈ policies ->
  statement ∈ statements policy ->
  effect statement = "Allow" ->
  who ∈ whos_allowed statement ->
  ("FRIENDLY" ∈ inspect_entity (Entity.from_tuple who) item ->
   finding friendly item (Entity.from_tuple who) (list_of_set (actions statement))
     ∈ new_findings (run Friendly item) s)
  /\ ("THIRDPARTY" ∈ inspect_entity (Entity.from_tuple who) item ->
      finding thirdparty item (Entity.from_tuple who) (list_of_set (actions statement))
        ∈ new_findings (run Thirdparty item) s).
Proof.
  intros Hload Hp Hst Heff Hw.
  rewrite !new_findings_spec, Hload. cbn [findings_of].
  assert (Htriple : (policy, statement, who) ∈ allow_triples policies)
    by by apply elem_of_allow_triples.
  split; intros Htag; apply elem_of_generic_cross_account;
    exists policy, statement, who; done.
Qed.


(** X8: the wildcard is left to the internet check: the unknown check
    records no finding for the wildcard principal ([principal], [*]), and
    the root check none for an entity whose value is [*], whatever the
    registry says of them. *)
Theorem X8_wildcard_is_not_cross_account item s :
  Forall (fun f => finding_entity f <> everyone) (new_findings (run Unknown item) s)
  /\ Forall (fun f => Entity.value (finding_entity f) <> "*")
       (new_findings (run Root item) s).
Proof.
  rewrite !new_findings_spec. cbn [findings_of]. unfold unknown_findings.
  destruct (load item) as [policies|e]; [|by split].
  split; apply Forall_forall; intros f Hf.
  - apply elem_of_generic_cross_account in Hf
      as (policy & statement & who & _ & Hskip & _ & ->).
    unfold unknown_skip in Hskip. apply orb_false_iff in Hskip as [Hwild _].
    unfold is_wildcard_principal in Hwild. intros Heq.
    destruct who as [cat val]. injection Heq as -> ->. discriminate.
  - apply elem_of_root_findings in Hf as (policy & statement & who & _ & Hq & ->).
    by apply root_qualifies_iff in Hq as (_ & Hval & _).
Qed.


(** X10: without a cross-account tag there is no cross-account finding:
    when the registry gives none of [FRIENDLY], [THIRDPARTY], [UNKNOWN] to
    any entity for the item, the four cross-account checks record nothing. *)
Theorem X10_no_tag_no_finding (c : check) item s :
  (forall entity, inspect_entity entity item ∩ cross_account_tags = ∅) ->
  c <> Internet ->
  new_findings (run c item) s = [].
Proof.
  intros Hnone Hc. rewrite new_findings_spec.
  destruct (load item) as [policies|e]; [|reflexivity].
  assert (Hgeneric : forall cat tag skip ps,
            tag ∈ cross_account_tags ->
            generic_cross_account inspect_entity cat tag skip item ps = []).
  { intros cat tag skip ps Htag. apply elem_of_nil_inv. intros f Hf.
    apply elem_of_generic_cross_account in Hf
      as (policy & statement & who & _ & _ & Hin & _).
    assert (Hboth : tag ∈ inspect_entity (Entity.from_tuple who) item ∩ cross_account_tags)
      by by apply elem_of_intersection.
    rewrite Hnone in Hboth. by apply elem_of_empty in Hboth. }
  assert (Htags : "FRIENDLY" ∈ cross_account_tags /\ "THIRDPARTY" ∈ cross_account_tags
                  /\ "UNKNOWN" ∈ cross_account_tags).
  { unfold cross_account_tags. rewrite !elem_of_union, !elem_of_singleton. auto. }
  destruct Htags as (HF & HT & HU).
  destruct c; cbn [findings_of]; [done|..].
  - by apply Hgeneric.
  - by apply Hgeneric.
  - by apply Hgeneric.
  - apply elem_of_nil_inv. intros f Hf.
    apply elem_of_root_findings in Hf as (policy & statement & who & _ & Hq & _).
    apply root_qualifies_iff in Hq as (_ & _ & _ & Htags).
    apply Htags, Hnone.
Qed.

(** X11: only the effect [Allow], spelled so, grants: when no statement of
    the extracted policies has the effect [Allow], the four cross-account
    checks record nothing. *)
Theorem X11_no_Allow_no_finding (c : check) item s policies :
  load item = Return policies ->
  (forall policy statement,
     policy ∈ policies -> statement ∈ statements policy -> effect statement <> "Allow") ->
  c <> Internet ->
  new_findings (run c item) s = [].
Proof.
  intros Hload Hnone Hc. rewrite new_findings_spec, Hload.
  assert (Htriples : allow_triples policies = []).
  { apply elem_of_nil_inv. intros [[policy statement] who] H.
    apply elem_of_allow_triples in H as (Hp & Hst & Heff & _).
    by apply (Hnone policy statement). }
  assert (Hfiltered : allow_triples (List.filter not_internet_accessible policies) = []).
  { apply elem_of_nil_inv. intros [[policy statement] who] H.
    apply elem_of_allow_triples in H as (Hp & Hst & Heff & _).
    apply list_elem_of_In, filter_In in Hp as [Hp _]. apply list_elem_of_In in Hp.
    by apply (Hnone policy statement). }
  destruct c; cbn [findings_of]; [done|..];
    unfold unknown_findings, generic_cross_account, root_findings;
    by rewrite ?Htriples, ?Hfiltered.
Qed.

End CheckProperties.

Section Registries.

Variable dpath_values : pyval -> string -> string -> outcome pyval.
Variable new_Policy : pyval -> outcome Policy.
Variable new_ARN : string -> ARN.

Lemma findings_of_Permutation inspect_entity c item policies policies' :
  policies ≡ₚ policies' ->
  findings_of new_ARN inspect_entity c item policies
  ≡ₚ findings_of new_ARN inspect_entity c item policies'.
Proof.
  intros Hperm.
  assert (Htriples : forall ps ps', ps ≡ₚ ps' -> allow_triples ps ≡ₚ allow_triples ps')
    by (intros ps ps' H; by apply Permutation_flat_map).
  destruct c; cbn [findings_of];
    unfold internet_findings, unknown_findings, generic_cross_account, root_findings;
    apply Permutation_flat_map; try by apply Htriples.
  - done.
  - by apply Htriples, filter_Permutation_list.
Qed.

Lemma findings_of_mono (inspect1 inspect2 : Entity.t -> Item -> gset string) c item policies :
  (forall entity, inspect1 entity item ⊆ inspect2 entity item) ->
  findings_of new_ARN inspect1 c item policies
  `sublist_of` findings_of new_ARN inspect2 c item policies.
Proof.
  intros Hsub.
  assert (Hgeneric : forall cat tag skip ps,
            generic_cross_account inspect1 cat tag skip item ps
            `sublist_of` generic_cross_account inspect2 cat tag skip item ps).
  { intros cat tag skip ps. apply flat_map_sublist. intros [[policy statement] who].
    destruct (skip who); [done|].
    destruct (bool_decide (tag ∈ inspect1 (Entity.from_tuple who) item)) eqn:H1;
      [|apply sublist_nil_l].
    apply bool_decide_eq_true in H1.
    by rewrite (bool_decide_eq_true_2 _ (Hsub _ _ H1)). }
  destruct c; cbn [findings_of]; [done | apply Hgeneric..|].
  apply flat_map_sublist. intros [[policy statement] who].
  destruct (root_qualifies new_ARN inspect1 item who) eqn:H1; [|apply sublist_nil_l].
  apply root_qualifies_iff in H1 as (Hcat & Hval & Hroot & Htags).
  assert (H2 : root_qualifies new_ARN inspect2 item who = true).
  { apply root_qualifies_iff. repeat split; try done.
    by apply (cross_account_tags_mono (inspect1 (Entity.from_tuple who) item)). }
  by rewrite H2.
Qed.

(** X12: the checks are monotone in the registry: when a second registry
    gives every entity at least the tags of the first, each check records
    with the second all the findings it records with the first, in the same
    order, and possibly more. *)
Theorem X12_more_tags_more_findings
    (inspect1 inspect2 : Entity.t -> Item -> gset string) self (c : check) item s :
  (forall entity, inspect1 entity item ⊆ inspect2 entity item) ->
  new_findings (run_check dpath_values new_Policy new_ARN inspect1 self c item) s
  `sublist_of`
  new_findings (run_check dpath_values new_Policy new_ARN inspect2 self c item) s.
Proof.
  intros Hsub. rewrite !new_findings_spec.
  destruct (load_policies dpath_values new_Policy self item) as [policies|e]; [|done].
  by apply findings_of_mono.
Qed.

(** X13: the order of the configured paths only orders the result: when
    [load_policies] returns for some order of the paths, it returns for
    every other order, the same policies up to their order, and every check
    records the same findings up to their order. *)
Theorem X13_order_of_paths inspect_entity keys keys' item policies :
  keys ≡ₚ keys' ->
  load_policies dpath_values new_Policy (with_keys keys) item = Return policies ->
  exists policies',
    load_policies dpath_values new_Policy (with_keys keys') item = Return policies'
    /\ policies ≡ₚ policies'
    /\ forall (c : check) s,
         new_findings
           (run_check dpath_values new_Policy new_ARN inspect_entity (with_keys keys)
              c item) s
         ≡ₚ new_findings
              (run_check dpath_values new_Policy new_ARN inspect_entity (with_keys keys')
                 c item) s.
Proof.
  intros Hperm Hload.
  destruct (load_policies_with_keys_Permutation dpath_values new_Policy
              keys keys' item policies Hperm Hload) as (policies' & Hload' & Hpolicies).
  exists policies'. split; [done|]. split; [done|].
  intros c s. rewrite !new_findings_spec, Hload, Hload'.
  by apply findings_of_Permutation.
Qed.

End Registries.

(** ** The further properties at work *)

Lemma X6_friendly_and_thirdparty_miss_nothing_witness :
  load_policies Standin.values (const_parser public_policy) init Examples.public_item
  = Return [public_policy]
  /\ "FRIENDLY" ∈ friendly_wildcard_registry everyone Examples.public_item
  /\ finding friendly Examples.public_item everyone (list_of_set {[ "s3:GetObject" ]})
       ∈ new_findings
           (run_check Standin.values (const_parser public_policy) Standin.ARN
              friendly_wildcard_registry init Friendly Examples.public_item) [].
Proof.
  assert (Htag : "FRIENDLY" ∈ friendly_wildcard_registry everyone Examples.public_item)
    by (apply (bool_decide_unpack _); vm_compute; exact I).
  assert (Hload : load_policies Standin.values (const_parser public_policy) init
                    Examples.public_item = Return [public_policy])
    by (vm_compute; reflexivity).
  split; [exact Hload|]. split; [exact Htag|].
  pose proof (X6_friendly_and_thirdparty_miss_nothing Standin.values
                (const_parser public_policy) Standin.ARN friendly_wildcard_registry init
                Examples.public_item [] [public_policy] public_policy
                {| effect := "Allow"; actions := {[ "s3:GetObject" ]};
                   whos_allowed := [{| Who.category := "principal"; Who.value := "*" |}] |}
                {| Who.category := "principal"; Who.value := "*" |}
                Hload (list_elem_of_here _ _) (list_elem_of_here _ _) eq_refl
                (list_elem_of_here _ _)) as [Hfriendly _].
  exact (Hfriendly Htag).
Defined.

Lemma same_account_has_no_cross_account_tag entity :
  same_account_registry entity Examples.mixed_item ∩ cross_account_tags = ∅.
Proof. vm_compute. reflexivity. Defined.

Lemma X10_no_tag_no_finding_witness :
  (forall entity,
     same_account_registry entity Examples.mixed_item ∩ cross_account_tags = ∅)
  /\ new_findings
       (run_check Standin.values Standin.Policy Standin.ARN same_account_registry init
          Root Examples.mixed_item) [] = [].
Proof.
  split; [exact same_account_has_no_cross_account_tag|].
  apply (X10_no_tag_no_finding Standin.values Standin.Policy Standin.ARN
           same_account_registry init Root Examples.mixed_item []);
    [exact same_account_has_no_cross_account_tag | discriminate].
Defined.

Lemma lowercase_policy_has_no_Allow policy statement :
  policy ∈ [lowercase_policy] -> statement ∈ statements policy ->
  effect statement <> "Allow".
Proof.
  intros Hp Hst. apply list_elem_of_singleton in Hp. subst policy.
  apply list_elem_of_singleton in Hst. subst statement. discriminate.
Defined.

Lemma X11_no_Allow_no_finding_witness :
  load_policies Standin.values (const_parser lowercase_policy) init Examples.public_item
  = Return [lowercase_policy]
  /\ (forall policy statement,
        policy ∈ [lowercase_policy] -> statement ∈ statements policy ->
        effect statement <> "Allow")
  /\ new_findings
       (run_check Standin.values (const_parser lowercase_policy) Standin.ARN
          Examples.registry init Root Examples.public_item) [] = [].
Proof.
  assert (Hload : load_policies Standin.values (const_parser lowercase_policy) init
                    Examples.public_item = Return [lowercase_policy])
    by (vm_compute; reflexivity).
  split; [exact Hload|]. split; [exact lowercase_policy_has_no_Allow|].
  apply (X11_no_Allow_no_finding Standin.values (const_parser lowercase_policy)
           Standin.ARN Examples.registry init Root Examples.public_item []
           [lowercase_policy]);
    [exact Hload | exact lowercase_policy_has_no_Allow | discriminate].
Defined.

Lemma registry_below_wider_registry entity :
  Examples.registry entity Examples.mixed_item
  ⊆ wider_registry entity Examples.mixed_item.
Proof. unfold wider_registry. apply union_subseteq_l. Defined.

Lemma X12_more_tags_more_findings_witness :
  (forall entity,
     Examples.registry entity Examples.mixed_item
     ⊆ wider_registry entity Examples.mixed_item)
  /\ new_findings
       (run_check Standin.values Standin.Policy Standin.ARN Examples.registry init
          Unknown Examples.mixed_item) []
     `sublist_of`
     new_findings
       (run_check Standin.values Standin.Policy Standin.ARN wider_registry init
          Unknown Examples.mixed_item) [].
Proof.
  split; [exact registry_below_wider_registry|].
  apply (X12_more_tags_more_findings Standin.values Standin.Policy Standin.ARN
           Examples.registry wider_registry init Unknown Examples.mixed_item []).
  exact registry_below_wider_registry.
Defined.

Lemma X13_order_of_paths_witness :
  policy_keys Examples.function_auditor ≡ₚ swapped_keys
  /\ load_policies Standin.values (const_parser public_policy)
       (with_keys (policy_keys Examples.function_auditor)) Examples.function_item
     = Return (replicate 4 public_policy)
  /\ exists policies',
       load_policies Standin.values (const_parser public_policy)
         (with_keys swapped_keys) Examples.function_item = Return policies'
       /\ replicate 4 public_policy ≡ₚ policies'
       /\ forall (c : check) s,
            new_findings
              (run_check Standin.values (const_parser public_policy) Standin.ARN
                 Examples.registry (with_keys (policy_keys Examples.function_auditor))
                 c Examples.function_item) s
            ≡ₚ new_findings
                 (run_check Standin.values (const_parser public_policy) Standin.ARN
                    Examples.registry (with_keys swapped_keys)
                    c Examples.function_item) s.
Proof.
  assert (Hload : load_policies Standin.values (const_parser public_policy)
                    (with_keys (policy_keys Examples.function_auditor))
                    Examples.function_item
                  = Return (replicate 4 public_policy))
    by (vm_compute; reflexivity).
  split; [apply perm_swap|]. split; [exact Hload|].
  apply (X13_order_of_paths Standin.values (const_parser public_policy) Standin.ARN
           Examples.registry (policy_keys Examples.function_auditor) swapped_keys
           Examples.function_item (replicate 4 public_policy));
    [apply perm_swap | exact Hload].
Defined.
